(** * Street Solar Charger: the control engine of Street_Solar.ino

    A shallow embedding of the charger's global state, of the four cases of
    [loop()] and of the timer interrupt [pwm_handler()], followed by the
    properties of the charger's specification.

    Conventions of the model.
    - [unsigned char] and [unsigned long] variables are integers kept in
      range by an explicit reduction modulo 2^8 and 2^32; the [long int]
      accumulators wrap in two's complement on addition, and [>>] on a
      [long int] is the arithmetic shift.
    - [double] values are exact rationals: rounding of the target's
      floating-point unit is not modelled.  A conversion from [double] to an
      integer type truncates toward zero and has no result when the
      truncated value does not fit the integer type; a division by a zero
      [double] has no result either.
    - What the three ADC macros and [micros()] return is an input: one
      [readings] record carries the values read during one pass through
      [loop()].  The arithmetic of the macros is given apart, to build
      readings from ADC codes.
    - One pass through [loop()] and one call of [pwm_handler()] are atomic
      steps; the digital pin SW1_PWM is a boolean of the state. *)

From Stdlib Require Import ZArith QArith Qround Qabs Bool List Lia Lqa.
Import ListNotations.
Local Open Scope Z_scope.

(** ** Machine arithmetic *)

Module Machine.

(** Reduction of an integer into [unsigned char]. *)
Definition uchar (z : Z) : Z := z mod 256.

(** Reduction of an integer into [unsigned long] (32 bits on the AVR). *)
Definition ulong (z : Z) : Z := z mod 2 ^ 32.

Definition LONG_MIN : Z := - 2 ^ 31.
Definition LONG_MAX : Z := 2 ^ 31 - 1.

(** Two's complement wrap-around of a [long int] result. *)
Definition long (z : Z) : Z := (z + 2 ^ 31) mod 2 ^ 32 - 2 ^ 31.

(** Truncation of a rational toward zero, as C converts a floating value to
    an integer type. *)
Definition Qtrunc (q : Q) : Z :=
  if Qnum q <? 0 then Qceiling q else Qfloor q.

(** [(long) x] for a [double] x. *)
Definition double_to_long (q : Q) : option Z :=
  let z := Qtrunc q in
  if (LONG_MIN <=? z) && (z <=? LONG_MAX) then Some z else None.

(** [(char) x] for a [double] x; [char] is signed on the AVR. *)
Definition double_to_char (q : Q) : option Z :=
  let z := Qtrunc q in
  if (-128 <=? z) && (z <=? 127) then Some z else None.

(** [a < b] on doubles. *)
Definition Qlt_bool (a b : Q) : bool := negb (Qle_bool b a).

End Machine.
Import Machine.

(** ** Defines *)

Definition VCHARGE : Q := 14 # 1.
Definition NUM_INT : Z := 10.
Definition D_MIN : Z := 5.
Definition D_MAX : Z := 98.

(** ** Global variables *)

Inductive STATES : Set := INIT | INTEGRATE | MPPT | DONE.

Record state : Set := mkState {
  cur_state : STATES;
  duty_cycle : Z;        (* unsigned char *)
  v_solar : Q;
  v_battery : Q;
  vl_cur : Q;
  vl_prev : Q;
  p_cur : Q;
  p_prev : Q;
  integral : Z;          (* long int *)
  t_cur : Z;             (* unsigned long *)
  t_prev : Z;            (* unsigned long *)
  num_integrals : Z;     (* unsigned char *)
  integral_avg : Z;      (* long int *)
  pwm_count : Z;         (* unsigned char *)
  new_integral : bool;
  timer_on : bool;
  duty_inc : bool;
  SW1_PWM : bool         (* level of the SW1 pin: true is HIGH *)
}.

(** Assignments to the globals. *)
Definition set_cur_state (v : STATES) (s : state) : state :=
  mkState v (duty_cycle s) (v_solar s) (v_battery s) (vl_cur s) (vl_prev s)
    (p_cur s) (p_prev s) (integral s) (t_cur s) (t_prev s) (num_integrals s)
    (integral_avg s) (pwm_count s) (new_integral s) (timer_on s)
    (duty_inc s) (SW1_PWM s).
Definition set_duty_cycle (v : Z) (s : state) : state :=
  mkState (cur_state s) v (v_solar s) (v_battery s) (vl_cur s) (vl_prev s)
    (p_cur s) (p_prev s) (integral s) (t_cur s) (t_prev s) (num_integrals s)
    (integral_avg s) (pwm_count s) (new_integral s) (timer_on s)
    (duty_inc s) (SW1_PWM s).
Definition set_v_solar (v : Q) (s : state) : state :=
  mkState (cur_state s) (duty_cycle s) v (v_battery s) (vl_cur s)
    (vl_prev s) (p_cur s) (p_prev s) (integral s) (t_cur s) (t_prev s)
    (num_integrals s) (integral_avg s) (pwm_count s) (new_integral s)
    (timer_on s) (duty_inc s) (SW1_PWM s).
Definition set_v_battery (v : Q) (s : state) : state :=
  mkState (cur_state s) (duty_cycle s) (v_solar s) v (vl_cur s) (vl_prev s)
    (p_cur s) (p_prev s) (integral s) (t_cur s) (t_prev s) (num_integrals s)
    (integral_avg s) (pwm_count s) (new_integral s) (timer_on s)
    (duty_inc s) (SW1_PWM s).
Definition set_vl_cur (v : Q) (s : state) : state :=
  mkState (cur_state s) (duty_cycle s) (v_solar s) (v_battery s) v
    (vl_prev s) (p_cur s) (p_prev s) (integral s) (t_cur s) (t_prev s)
    (num_integrals s) (integral_avg s) (pwm_count s) (new_integral s)
    (timer_on s) (duty_inc s) (SW1_PWM s).
Definition set_vl_prev (v : Q) (s : state) : state :=
  mkState (cur_state s) (duty_cycle s) (v_solar s) (v_battery s) (vl_cur s)
    v (p_cur s) (p_prev s) (integral s) (t_cur s) (t_prev s)
    (num_integrals s) (integral_avg s) (pwm_count s) (new_integral s)
    (timer_on s) (duty_inc s) (SW1_PWM s).
Definition set_p_cur (v : Q) (s : state) : state :=
  mkState (cur_state s) (duty_cycle s) (v_solar s) (v_battery s) (vl_cur s)
    (vl_prev s) v (p_prev s) (integral s) (t_cur s) (t_prev s)
    (num_integrals s) (integral_avg s) (pwm_count s) (new_integral s)
    (timer_on s) (duty_inc s) (SW1_PWM s).
Definition set_p_prev (v : Q) (s : state) : state :=
  mkState (cur_state s) (duty_cycle s) (v_solar s) (v_battery s) (vl_cur s)
    (vl_prev s) (p_cur s) v (integral s) (t_cur s) (t_prev s)
    (num_integrals s) (integral_avg s) (pwm_count s) (new_integral s)
    (timer_on s) (duty_inc s) (SW1_PWM s).
Definition set_integral (v : Z) (s : state) : state :=
  mkState (cur_state s) (duty_cycle s) (v_solar s) (v_battery s) (vl_cur s)
    (vl_prev s) (p_cur s) (p_prev s) v (t_cur s) (t_prev s)
    (num_integrals s) (integral_avg s) (pwm_count s) (new_integral s)
    (timer_on s) (duty_inc s) (SW1_PWM s).
Definition set_t_cur (v : Z) (s : state) : state :=
  mkState (cur_state s) (duty_cycle s) (v_solar s) (v_battery s) (vl_cur s)
    (vl_prev s) (p_cur s) (p_prev s) (integral s) v (t_prev s)
    (num_integrals s) (integral_avg s) (pwm_count s) (new_integral s)
    (timer_on s) (duty_inc s) (SW1_PWM s).
Definition set_t_prev (v : Z) (s : state) : state :=
  mkState (cur_state s) (duty_cycle s) (v_solar s) (v_battery s) (vl_cur s)
    (vl_prev s) (p_cur s) (p_prev s) (integral s) (t_cur s) v
    (num_integrals s) (integral_avg s) (pwm_count s) (new_integral s)
    (timer_on s) (duty_inc s) (SW1_PWM s).
Definition set_num_integrals (v : Z) (s : state) : state :=
  mkState (cur_state s) (duty_cycle s) (v_solar s) (v_battery s) (vl_cur s)
    (vl_prev s) (p_cur s) (p_prev s) (integral s) (t_cur s) (t_prev s) v
    (integral_avg s) (pwm_count s) (new_integral s) (timer_on s)
    (duty_inc s) (SW1_PWM s).
Definition set_integral_avg (v : Z) (s : state) : state :=
  mkState (cur_state s) (duty_cycle s) (v_solar s) (v_battery s) (vl_cur s)
    (vl_prev s) (p_cur s) (p_prev s) (integral s) (t_cur s) (t_prev s)
    (num_integrals s) v (pwm_count s) (new_integral s) (timer_on s)
    (duty_inc s) (SW1_PWM s).
Definition set_pwm_count (v : Z) (s : state) : state :=
  mkState (cur_state s) (duty_cycle s) (v_solar s) (v_battery s) (vl_cur s)
    (vl_prev s) (p_cur s) (p_prev s) (integral s) (t_cur s) (t_prev s)
    (num_integrals s) (integral_avg s) v (new_integral s) (timer_on s)
    (duty_inc s) (SW1_PWM s).
Definition set_new_integral (v : bool) (s : state) : state :=
  mkState (cur_state s) (duty_cycle s) (v_solar s) (v_battery s) (vl_cur s)
    (vl_prev s) (p_cur s) (p_prev s) (integral s) (t_cur s) (t_prev s)
    (num_integrals s) (integral_avg s) (pwm_count s) v (timer_on s)
    (duty_inc s) (SW1_PWM s).
Definition set_timer_on (v : bool) (s : state) : state :=
  mkState (cur_state s) (duty_cycle s) (v_solar s) (v_battery s) (vl_cur s)
    (vl_prev s) (p_cur s) (p_prev s) (integral s) (t_cur s) (t_prev s)
    (num_integrals s) (integral_avg s) (pwm_count s) (new_integral s) v
    (duty_inc s) (SW1_PWM s).
Definition set_duty_inc (v : bool) (s : state) : state :=
  mkState (cur_state s) (duty_cycle s) (v_solar s) (v_battery s) (vl_cur s)
    (vl_prev s) (p_cur s) (p_prev s) (integral s) (t_cur s) (t_prev s)
    (num_integrals s) (integral_avg s) (pwm_count s) (new_integral s)
    (timer_on s) v (SW1_PWM s).
Definition set_SW1_PWM (v : bool) (s : state) : state :=
  mkState (cur_state s) (duty_cycle s) (v_solar s) (v_battery s) (vl_cur s)
    (vl_prev s) (p_cur s) (p_prev s) (integral s) (t_cur s) (t_prev s)
    (num_integrals s) (integral_avg s) (pwm_count s) (new_integral s)
    (timer_on s) (duty_inc s) v.

(** ** Inputs of one pass through [loop()] *)

Record readings : Set := mkReadings {
  VBAT_MEAS : Q;    (* battery voltage read by check_battery() *)
  VSOL_MEAS : Q;    (* solar voltage read by check_solar() *)
  VL_MEAS : Q;      (* inductor voltage *)
  micros : Z;       (* microsecond clock, an unsigned long *)
  VBAT_MEAS_2 : Q   (* battery voltage read again by the MPPT decision *)
}.

(** ** The ADC macros *)

(** [ADC_COEF] is [(3.3/(2^(11)-1))]: in C [^] is the exclusive or and binds
    less tightly than [-], so the divisor is [2 xor 10]. *)
Definition ADC_COEF : Q := (33 # 10) / inject_Z (Z.lxor 2 (11 - 1)).

(** [analogRead(VBAT_ADC)*VBAT_COEF], with [VBAT_COEF] expanded in place. *)
Definition VBAT_of_code (code : Z) : Q :=
  inject_Z code * ADC_COEF / (15625 # 100000).

(** [((analogRead(VL_ADC)*ADC_COEF + VL_OFF)*VL_COEF)], expanded in place. *)
Definition VL_of_code (code : Z) : Q :=
  (inject_Z code * ADC_COEF + - (25 # 10)) * 1 / (990991 # 10000000).

(** [analogRead(VSOL_ADC)*VSOL_COEF], expanded in place. *)
Definition VSOL_of_code (code : Z) : Q :=
  inject_Z code * ADC_COEF / (91639 # 1000000).

(** The readings of a pass whose three conversions return the given codes
    (each in 0..1023) at time [t]. *)
Definition adc_readings (vbat_code vl_code vsol_code t : Z) : readings :=
  mkReadings (VBAT_of_code vbat_code) (VSOL_of_code vsol_code)
    (VL_of_code vl_code) t (VBAT_of_code vbat_code).

(** ** setup() *)

Definition setup : state :=
  mkState INIT 0 0%Q 0%Q 0%Q 0%Q 0%Q 0%Q 0 0 0 0 0 0
    false false false false.

(** ** Helpers of loop() *)

Definition digitalWrite (level : bool) (s : state) : state :=
  set_SW1_PWM level s.

Definition check_battery (vbat : Q) (s : state) : state :=
  let s := set_v_battery vbat s in
  if Qle_bool VCHARGE (v_battery s)
  then set_cur_state DONE (set_timer_on false s)
  else s.

Definition check_solar (vsol : Q) (s : state) : state :=
  set_v_solar vsol s.

(** [v_solar*D_MAX/100.0]: what the panel gives at the maximum duty cycle. *)
Definition solar_at_D_MAX (s : state) : Q :=
  v_solar s * inject_Z D_MAX / (100 # 1).

(** ** case INIT *)

(** [(char) (100 * ((double) v_battery / (double) v_solar))], stored in the
    [unsigned char] duty_cycle. *)
Definition init_duty (vbat vsol : Q) : option Z :=
  if Qeq_bool vsol 0%Q then None
  else option_map uchar (double_to_char ((100 # 1) * (vbat / vsol))).

Definition loop_INIT (s : state) (r : readings) : option state :=
  let s := set_pwm_count 0 s in
  let s := set_num_integrals 0 s in
  let s := set_integral 0 s in
  let s := set_new_integral false s in
  let s := set_integral_avg 0 s in
  let s := set_duty_inc true s in
  let s := set_p_cur 0%Q s in
  let s := set_p_prev (p_cur s) s in
  let s := check_battery (VBAT_MEAS r) s in
  let s := check_solar (VSOL_MEAS r) s in
  let s := set_vl_prev (VL_MEAS r) s in
  match init_duty (v_battery s) (v_solar s) with
  | None => None
  | Some d =>
      let s := set_duty_cycle d s in
      let s := set_t_cur (micros r) s in
      let s := set_t_prev (t_cur s) s in
      let s := set_cur_state INTEGRATE s in
      Some (set_timer_on true s)
  end.

(** ** case INTEGRATE *)

(** The value added to [integral]: the source branches on which sample is
    the larger one. *)
Definition integrand (s : state) : Q :=
  if Qle_bool (vl_prev s) (vl_cur s)
  then (vl_prev s + (vl_cur s - vl_prev s) / (2 # 1))
       * inject_Z (ulong (t_cur s - t_prev s))
  else (vl_cur s + (vl_prev s - vl_cur s) / (2 # 1))
       * inject_Z (ulong (t_cur s - t_prev s)).

Definition loop_INTEGRATE (s : state) (r : readings) : option state :=
  let s := if new_integral s then s else digitalWrite true s in
  let s := set_new_integral true s in
  let s := set_t_cur (micros r) s in
  let s := set_vl_cur (VL_MEAS r) s in
  match double_to_long (inject_Z (integral s) + integrand s) with
  | None => None
  | Some i =>
      let s := set_integral i s in
      let s := set_t_prev (t_cur s) s in
      Some (set_vl_prev (vl_cur s) s)
  end.

(** ** case MPPT *)

(** Lines 218-226: the battery and solar checks. *)
Definition mppt_check (s : state) (r : readings) : state :=
  let s := check_battery (VBAT_MEAS r) s in
  let s := check_solar (VSOL_MEAS r) s in
  if Qlt_bool (solar_at_D_MAX s) (v_battery s)
  then set_cur_state DONE (set_timer_on false s)
  else s.

(** Lines 227-241: the work done once when MPPT has just been entered. *)
Definition mppt_fold (s : state) : state :=
  if new_integral s then
    let s := digitalWrite false s in
    let s := set_integral_avg (long (integral_avg s + integral s)) s in
    let s := set_integral_avg (Z.shiftr (integral_avg s) 1) s in
    let s := set_num_integrals (uchar (num_integrals s + 1)) s in
    let s := set_new_integral false s in
    set_integral 0 s
  else s.

(** [if (++duty_cycle >= D_MAX) duty_cycle = D_MAX; duty_inc = 1;] *)
Definition duty_up (s : state) : state :=
  let s := set_duty_cycle (uchar (duty_cycle s + 1)) s in
  let s := if D_MAX <=? duty_cycle s then set_duty_cycle D_MAX s else s in
  set_duty_inc true s.

(** [if (--duty_cycle <= D_MIN) duty_cycle = D_MIN; duty_inc = 0;] *)
Definition duty_down (s : state) : state :=
  let s := set_duty_cycle (uchar (duty_cycle s - 1)) s in
  let s := if duty_cycle s <=? D_MIN then set_duty_cycle D_MIN s else s in
  set_duty_inc false s.

(** Lines 242-278: the perturb-and-observe decision. *)
Definition mppt_decide (s : state) (r : readings) : state :=
  if num_integrals s =? NUM_INT then
    let s := check_battery (VBAT_MEAS_2 r) s in
    let s := set_p_cur (v_battery s * inject_Z (integral_avg s)) s in
    let s :=
      if Qlt_bool 0%Q (p_cur s - p_prev s) then
        if duty_inc s then duty_up s else duty_down s
      else if Qlt_bool (p_cur s - p_prev s) 0%Q then
        if duty_inc s then duty_down s else duty_up s
      else s in
    let s := set_p_prev (p_cur s) s in
    set_num_integrals 0 s
  else s.

Definition loop_MPPT (s : state) (r : readings) : state :=
  mppt_decide (mppt_fold (mppt_check s r)) r.

(** ** case DONE *)

(** The closing [delay()] changes no variable and is left out. *)
Definition loop_DONE (s : state) (r : readings) : state :=
  let s := set_timer_on false s in
  let s := digitalWrite false s in
  let s := check_battery (VBAT_MEAS r) s in
  let s := check_solar (VSOL_MEAS r) s in
  if Qlt_bool (v_battery s) VCHARGE
     && Qle_bool (v_battery s) (solar_at_D_MAX s)
  then set_cur_state INIT s
  else s.

(** ** loop() *)

Definition loop (s : state) (r : readings) : option state :=
  match cur_state s with
  | INIT => loop_INIT s r
  | INTEGRATE => loop_INTEGRATE s r
  | MPPT => Some (loop_MPPT s r)
  | DONE => Some (loop_DONE s r)
  end.

(** ** pwm_handler() *)

Definition pwm_handler (s : state) : state :=
  if timer_on s then
    let s := set_pwm_count (uchar (pwm_count s + 1)) s in
    if pwm_count s <=? duty_cycle s then set_cur_state INTEGRATE s
    else if (duty_cycle s <? pwm_count s) && (pwm_count s <? 100)
    then set_cur_state MPPT s
    else if 100 <=? pwm_count s then set_pwm_count 0 s
    else s
  else s.

(** The phase that one call of the handler assigns to [cur_state], if it
    assigns one: the same tests, keeping only which assignment is run. *)
Definition pwm_signal (s : state) : option STATES :=
  if timer_on s then
    let s := set_pwm_count (uchar (pwm_count s + 1)) s in
    if pwm_count s <=? duty_cycle s then Some INTEGRATE
    else if (duty_cycle s <? pwm_count s) && (pwm_count s <? 100)
    then Some MPPT
    else None
  else None.

(** ** Executions *)

Inductive event : Set :=
| Loop (r : readings)   (* one pass through loop() *)
| Tick.                 (* one timer interrupt *)

Definition step (s : state) (e : event) : option state :=
  match e with
  | Loop r => loop s r
  | Tick => Some (pwm_handler s)
  end.

Fixpoint run (s : state) (es : list event) : option state :=
  match es with
  | [] => Some s
  | e :: es' =>
      match step s e with
      | Some s' => run s' es'
      | None => None
      end
  end.

(** The states the charger can be in between two steps after power-up. *)
Definition reachable (s : state) : Prop :=
  exists es, run setup es = Some s.

(** ** The specification's words, for comparison with the code *)



(** A sample of the inductor voltage with its timestamp. *)
Definition sample : Set := (Q * Z)%type.

Definition sample_readings (x : sample) : readings :=
  mkReadings 0%Q 0%Q (fst x) (snd x) 0%Q.

(** Consecutive INTEGRATE passes over a sequence of samples. *)
Fixpoint integrate_samples (s : state) (xs : list sample) : option state :=
  match xs with
  | [] => Some s
  | x :: xs' =>
      match loop_INTEGRATE s (sample_readings x) with
      | Some s' => integrate_samples s' xs'
      | None => None
      end
  end.

(** The trapezoidal sum of a sequence of samples that follows the sample
    [(v0, t0)]: over consecutive pairs, the average of the two voltages times
    the time elapsed between them. *)
Fixpoint trapezoidal_sum (v0 : Q) (t0 : Z) (xs : list sample) : Q :=
  match xs with
  | [] => 0
  | (v, t) :: xs' =>
      (v0 + v) / (2 # 1) * inject_Z (t - t0) + trapezoidal_sum v t xs'
  end.




(** ** The perturb-and-observe rule, in the specification's words *)

(** [s'] is the outcome of one decision taken at duty cycle [duty], with the
    last direction [inc], the previous power [pprev] and the new power [pc]:
    a higher power repeats the last direction, a lower power reverses it, an
    equal power changes nothing; every change is clamped; the new power
    becomes the previous one and the count of integrals restarts. *)
Definition perturb_and_observe
    (duty : Z) (inc : bool) (pprev pc : Q) (s' : state) : Prop :=
  p_cur s' = pc /\
  ((pprev < pc)%Q ->
     duty_cycle s' = (if inc then Z.min (duty + 1) D_MAX
                      else Z.max (duty - 1) D_MIN) /\
     duty_inc s' = inc) /\
  ((pc < pprev)%Q ->
     duty_cycle s' = (if inc then Z.max (duty - 1) D_MIN
                      else Z.min (duty + 1) D_MAX) /\
     duty_inc s' = negb inc) /\
  ((pc == pprev)%Q -> duty_cycle s' = duty /\ duty_inc s' = inc) /\
  D_MIN <= duty_cycle s' <= D_MAX /\
  p_prev s' = pc /\ num_integrals s' = 0.

(** ** Invariants *)


(** ** Concrete inputs and executions *)

(** The readings of a pass through loop() with the given battery and solar
    voltages, a zero inductor voltage and the clock at zero. *)
Definition volts (vbat vsol : Q) : readings :=
  mkReadings vbat vsol 0%Q 0 vbat.

(** The state after a list of events from power-up. *)
Definition after (es : list event) : state :=
  match run setup es with Some s => s | None => setup end.

(** Power-up with battery and panel both at 12 V. *)
Definition trace_equal_volts : list event := [Loop (volts (12 # 1) (12 # 1))].

(** Power-up with the ADC codes 4 (battery, 10.56 V) and 2 (panel, about
    9 V). *)
Definition trace_low_panel : list event := [Loop (adc_readings 4 6 2 0)].

(** Power-up with the battery at 12 V and the panel at 18 V. *)
Definition trace_12_18 : list event := [Loop (volts (12 # 1) (18 # 1))].

(** The readings of a pass through loop() while charging at 12 V / 18 V:
    inductor voltage [vl] sampled at time [t]. *)
Definition charging (vl : Q) (t : Z) : readings :=
  mkReadings (12 # 1) (18 # 1) vl t (12 # 1).

(** The events up to the first MPPT interrupt of a PWM period at duty cycle
    66: one INTEGRATE pass at time [t], then 66 more interrupts. *)
Definition on_phase (t : Z) : list event :=
  [Tick; Loop (charging (2 # 1) t)] ++ repeat Tick 66.

(** A whole PWM period: the ON phase, one MPPT pass, and the interrupts up to
    the one that resets the counter. *)
Definition pwm_period (t : Z) : list event :=
  on_phase t ++ [Loop (charging 0%Q t)] ++ repeat Tick 33.

Fixpoint pwm_periods (n : nat) (t : Z) : list event :=
  match n with
  | O => []
  | S n' => pwm_period t ++ pwm_periods n' (t + 1000)
  end.

(** Power-up at 12 V / 18 V, nine whole periods, and the ON phase of the
    tenth: MPPT is about to fold the tenth integral. *)
Definition trace_tenth_entry : list event :=
  trace_12_18 ++ pwm_periods 9 1000 ++ on_phase 10000.





(** Power-up with the ADC codes 5 (battery, 13.2 V), 6 (inductor, about
    -0.25 V) and 4 (panel, about 18 V), then ten samples of the same inductor
    code taken 128 microseconds apart. *)
Definition trace_adc_power_up : list event := [Loop (adc_readings 5 6 4 0)].

Definition adc_samples : list sample :=
  map (fun k => (VL_of_code 6, 128 * Z.of_nat k)) (seq 1 10).

(** ** The timer period requested by setup() *)

Definition PWM_FREQ : Z := 30.

(** [BASE_PER] is [(1/(100*PWM_FREQ))], a quotient of ints, here for any
    value [freq] of PWM_FREQ. *)
Definition BASE_PER (freq : Z) : Z := Z.quot 1 (100 * freq).

(** The argument [BASE_PER*1e6] of Timer1.initialize(), in microseconds. *)
Definition timer_period (freq : Z) : Q :=
  inject_Z (BASE_PER freq) * (1000000 # 1).

(** ** Further invariants and executions *)

(** What links the flags of a state between two steps: the timer runs exactly
    in the two phases driven by the handler, the pin is HIGH exactly while
    the entry flag is set, the count of integrals is below NUM_INT, and every
    integer variable is within its C type. *)
Definition machine_inv (s : state) : Prop :=
  (timer_on s = true <-> cur_state s = INTEGRATE \/ cur_state s = MPPT) /\
  SW1_PWM s = new_integral s /\
  (cur_state s = INIT \/ cur_state s = DONE -> SW1_PWM s = false) /\
  0 <= num_integrals s < NUM_INT /\
  0 <= duty_cycle s < 256 /\
  0 <= pwm_count s < 256 /\
  LONG_MIN <= integral s <= LONG_MAX /\
  LONG_MIN <= integral_avg s <= LONG_MAX.

(** [n] consecutive timer interrupts. *)
Definition ticks (n : nat) (s : state) : state := Nat.iter n pwm_handler s.






(** ** Proof tools *)

Ltac fields :=
  unfold digitalWrite, check_solar in *;
  cbn [cur_state duty_cycle v_solar v_battery vl_cur vl_prev p_cur p_prev
       integral t_cur t_prev num_integrals integral_avg pwm_count
       new_integral timer_on duty_inc SW1_PWM
       set_cur_state set_duty_cycle set_v_solar set_v_battery set_vl_cur
       set_vl_prev set_p_cur set_p_prev set_integral set_t_cur set_t_prev
       set_num_integrals set_integral_avg set_pwm_count set_new_integral
       set_timer_on set_duty_inc set_SW1_PWM
       VBAT_MEAS VSOL_MEAS VL_MEAS micros VBAT_MEAS_2] in *.

Ltac branches :=
  repeat match goal with
  | |- context [if ?b then _ else _] => destruct b eqn:?; fields
  end.

(** ** Arithmetic lemmas *)

Lemma Qlt_bool_iff (a b : Q) : Qlt_bool a b = true <-> (a < b)%Q.
Proof.
  unfold Qlt_bool. rewrite negb_true_iff. split; intro H.
  - apply Qnot_le_lt. intro L. apply Qle_bool_iff in L. congruence.
  - destruct (Qle_bool b a) eqn:E; [|reflexivity].
    apply Qle_bool_iff in E. exfalso. exact (Qlt_not_le _ _ H E).
Qed.

Lemma Qlt_bool_false_iff (a b : Q) : Qlt_bool a b = false <-> (b <= a)%Q.
Proof.
  unfold Qlt_bool. rewrite negb_false_iff. apply Qle_bool_iff.
Qed.

Lemma Qnum_neg_iff (q : Q) : Qnum q < 0 <-> (q < 0)%Q.
Proof. destruct q as [n d]. unfold Qlt. simpl. lia. Qed.

Lemma Qtrunc_comp (p q : Q) : (p == q)%Q -> Qtrunc p = Qtrunc q.
Proof.
  intro E. unfold Qtrunc.
  assert (S : (Qnum p <? 0) = (Qnum q <? 0)).
  { apply eq_true_iff_eq. rewrite !Z.ltb_lt, !Qnum_neg_iff, E. tauto. }
  rewrite S. destruct (Qnum q <? 0).
  - now apply Qceiling_comp.
  - now apply Qfloor_comp.
Qed.



(** [Qtrunc] is the quotient that rounds toward zero. *)
Lemma Qtrunc_quot (q : Q) : Qtrunc q = Z.quot (Qnum q) (Z.pos (Qden q)).
Proof.
  destruct q as [n d]. unfold Qtrunc, Qceiling, Qfloor. cbn [Qnum Qden Qopp].
  destruct (n <? 0) eqn:E.
  - apply Z.ltb_lt in E.
    rewrite <- (Z.opp_involutive n) at 2.
    rewrite Z.quot_opp_l by discriminate.
    rewrite Z.quot_div_nonneg by lia. reflexivity.
  - apply Z.ltb_ge in E. rewrite Z.quot_div_nonneg by lia. reflexivity.
Qed.

Example Qtrunc_pos : Qtrunc (7 # 2) = 3.
Proof. reflexivity. Qed.

Example Qtrunc_neg : Qtrunc (- 7 # 2) = -3.
Proof. reflexivity. Qed.

Example double_to_char_out_of_range : double_to_char (250 # 1) = None.
Proof. reflexivity. Qed.

Example ADC_COEF_value : (ADC_COEF == 33 # 80)%Q.
Proof. reflexivity. Qed.

Lemma uchar_small (z : Z) : 0 <= z < 256 -> uchar z = z.
Proof. intro H. unfold uchar. now apply Z.mod_small. Qed.

Lemma long_small (z : Z) : LONG_MIN <= z <= LONG_MAX -> long z = z.
Proof.
  unfold LONG_MIN, LONG_MAX, long. intro H.
  rewrite Z.mod_small by lia. lia.
Qed.


(** ** Executions and invariants *)

Lemma run_app (s : state) (es1 es2 : list event) :
  run s (es1 ++ es2) =
  match run s es1 with Some s' => run s' es2 | None => None end.
Proof.
  revert s. induction es1 as [|e es1 IH]; intro s; simpl.
  - reflexivity.
  - destruct (step s e); [apply IH | reflexivity].
Qed.


Lemma reachable_step (s s' : state) (e : event) :
  reachable s -> step s e = Some s' -> reachable s'.
Proof.
  intros [es R] H. exists (es ++ [e]).
  rewrite run_app, R. simpl. now rewrite H.
Qed.

(** A property that holds after setup() and that every step keeps holds in
    every reachable state. *)
Lemma reachable_ind (P : state -> Prop) :
  P setup ->
  (forall s e s', P s -> step s e = Some s' -> P s') ->
  forall s, reachable s -> P s.
Proof.
  intros P0 PS s [es R].
  assert (G : forall es a b, P a -> run a es = Some b -> P b).
  { clear es R. induction es as [|e es IH]; intros a b Pa Rab; simpl in Rab.
    - now inversion Rab; subst.
    - destruct (step a e) as [a'|] eqn:E; [|discriminate].
      eapply IH; [eapply PS; eauto | exact Rab]. }
  eapply G; eauto.
Qed.

Lemma check_battery_fields (vbat : Q) (s : state) :
  let s' := check_battery vbat s in
  v_battery s' = vbat /\ duty_cycle s' = duty_cycle s /\
  pwm_count s' = pwm_count s /\ new_integral s' = new_integral s /\
  SW1_PWM s' = SW1_PWM s /\ integral s' = integral s /\
  integral_avg s' = integral_avg s /\ num_integrals s' = num_integrals s /\
  p_prev s' = p_prev s /\ duty_inc s' = duty_inc s /\
  v_solar s' = v_solar s /\
  (cur_state s' = cur_state s \/ cur_state s' = DONE).
Proof.
  unfold check_battery. fields.
  destruct (Qle_bool VCHARGE vbat); fields; repeat split; auto.
Qed.

Lemma mppt_check_fields (s : state) (r : readings) :
  let s' := mppt_check s r in
  v_battery s' = VBAT_MEAS r /\ v_solar s' = VSOL_MEAS r /\
  duty_cycle s' = duty_cycle s /\ pwm_count s' = pwm_count s /\
  new_integral s' = new_integral s /\ SW1_PWM s' = SW1_PWM s /\
  integral s' = integral s /\ integral_avg s' = integral_avg s /\
  num_integrals s' = num_integrals s /\ p_prev s' = p_prev s /\
  duty_inc s' = duty_inc s /\
  (cur_state s' = cur_state s \/ cur_state s' = DONE).
Proof.
  unfold mppt_check.
  pose proof (check_battery_fields (VBAT_MEAS r) s) as H. cbv zeta in H.
  destruct H as (H1 & H2 & H3 & H4 & H5 & H6 & H7 & H8 & H9 & H10 & H11 & H12).
  cbv zeta. unfold solar_at_D_MAX. fields.
  destruct (Qlt_bool _ _); fields; repeat split; auto.
Qed.

Lemma mppt_fold_fields (s : state) :
  let s' := mppt_fold s in
  duty_cycle s' = duty_cycle s /\ pwm_count s' = pwm_count s /\
  cur_state s' = cur_state s /\ timer_on s' = timer_on s /\
  p_prev s' = p_prev s /\ duty_inc s' = duty_inc s /\
  v_battery s' = v_battery s /\ v_solar s' = v_solar s /\
  new_integral s' = false /\
  (SW1_PWM s' = false \/ (new_integral s = false /\ SW1_PWM s' = SW1_PWM s)).
Proof.
  unfold mppt_fold. destruct (new_integral s) eqn:E; fields;
    repeat split; auto.
Qed.

Lemma duty_up_fields (s : state) :
  let s' := duty_up s in
  cur_state s' = cur_state s /\ timer_on s' = timer_on s /\
  pwm_count s' = pwm_count s /\ new_integral s' = new_integral s /\
  SW1_PWM s' = SW1_PWM s /\ integral s' = integral s /\
  integral_avg s' = integral_avg s /\ p_cur s' = p_cur s /\
  duty_inc s' = true.
Proof.
  unfold duty_up. fields. destruct (D_MAX <=? _); fields; repeat split; auto.
Qed.

Lemma duty_down_fields (s : state) :
  let s' := duty_down s in
  cur_state s' = cur_state s /\ timer_on s' = timer_on s /\
  pwm_count s' = pwm_count s /\ new_integral s' = new_integral s /\
  SW1_PWM s' = SW1_PWM s /\ integral s' = integral s /\
  integral_avg s' = integral_avg s /\ p_cur s' = p_cur s /\
  duty_inc s' = false.
Proof.
  unfold duty_down. fields. destruct (_ <=? D_MIN); fields; repeat split; auto.
Qed.

Lemma duty_up_bounds (s : state) :
  D_MIN <= duty_cycle s <= D_MAX ->
  duty_cycle (duty_up s) = Z.min (duty_cycle s + 1) D_MAX /\
  D_MIN <= duty_cycle (duty_up s) <= D_MAX.
Proof.
  unfold D_MIN, D_MAX. intro B. unfold duty_up. fields.
  rewrite uchar_small by lia.
  destruct (D_MAX <=? duty_cycle s + 1) eqn:E; fields;
    unfold D_MAX in *; lia.
Qed.

Lemma duty_down_bounds (s : state) :
  D_MIN <= duty_cycle s <= D_MAX ->
  duty_cycle (duty_down s) = Z.max (duty_cycle s - 1) D_MIN /\
  D_MIN <= duty_cycle (duty_down s) <= D_MAX.
Proof.
  unfold D_MIN, D_MAX. intro B. unfold duty_down. fields.
  rewrite uchar_small by lia.
  destruct (duty_cycle s - 1 <=? D_MIN) eqn:E; fields;
    unfold D_MIN in *; lia.
Qed.

(** What the decision block leaves alone. *)
Lemma mppt_decide_fields (s : state) (r : readings) :
  let s' := mppt_decide s r in
  pwm_count s' = pwm_count s /\ new_integral s' = new_integral s /\
  SW1_PWM s' = SW1_PWM s /\ integral s' = integral s /\
  integral_avg s' = integral_avg s /\
  (cur_state s' = cur_state s \/ cur_state s' = DONE).
Proof.
  unfold mppt_decide. destruct (num_integrals s =? NUM_INT); [|tauto].
  pose proof (check_battery_fields (VBAT_MEAS_2 r) s) as H. cbv zeta in H.
  destruct H as (H1 & H2 & H3 & H4 & H5 & H6 & H7 & H8 & H9 & H10 & H11 & H12).
  cbv zeta. fields.
  set (c := set_p_cur _ _).
  assert (C : pwm_count c = pwm_count s /\ new_integral c = new_integral s /\
              SW1_PWM c = SW1_PWM s /\ integral c = integral s /\
              integral_avg c = integral_avg s /\
              (cur_state c = cur_state s \/ cur_state c = DONE)).
  { subst c. fields. tauto. }
  destruct C as (C1 & C2 & C3 & C4 & C5 & C6).
  pose proof (duty_up_fields c) as U. pose proof (duty_down_fields c) as D.
  cbv zeta in U, D.
  destruct U as (U1 & U2 & U3 & U4 & U5 & U6 & U7 & U8 & U9).
  destruct D as (D1 & D2 & D3 & D4 & D5 & D6 & D7 & D8 & D9).
  destruct (Qlt_bool 0 _); [|destruct (Qlt_bool _ 0)];
    try match goal with
        | |- context [if duty_inc ?x then _ else _] => destruct (duty_inc x)
        end; fields;
    repeat split; try congruence;
    rewrite ?U1, ?D1; exact C6.
Qed.



(** After INIT the duty cycle is only written by the MPPT decision, which
    keeps it between D_MIN and D_MAX once it is there. *)
Lemma mppt_decide_spec (m : state) (r : readings) :
  num_integrals m = NUM_INT ->
  D_MIN <= duty_cycle m <= D_MAX ->
  perturb_and_observe (duty_cycle m) (duty_inc m) (p_prev m)
    (VBAT_MEAS_2 r * inject_Z (integral_avg m))%Q (mppt_decide m r).
Proof.
  intros N B. unfold perturb_and_observe, mppt_decide.
  rewrite N, Z.eqb_refl.
  pose proof (check_battery_fields (VBAT_MEAS_2 r) m) as H. cbv zeta in H.
  destruct H as (H1 & H2 & H3 & H4 & H5 & H6 & H7 & H8 & H9 & H10 & H11 & H12).
  set (c := set_p_cur _ _).
  assert (C : p_cur c = (VBAT_MEAS_2 r * inject_Z (integral_avg m))%Q /\
              p_prev c = p_prev m /\ duty_inc c = duty_inc m /\
              duty_cycle c = duty_cycle m).
  { subst c. fields. rewrite H1, H7. auto. }
  destruct C as (C1 & C2 & C3 & C4).
  assert (Bc : D_MIN <= duty_cycle c <= D_MAX) by (rewrite C4; exact B).
  pose proof (duty_up_fields c) as U. pose proof (duty_down_fields c) as D.
  cbv zeta in U, D.
  destruct U as (_ & _ & _ & _ & _ & _ & _ & U8 & U9).
  destruct D as (_ & _ & _ & _ & _ & _ & _ & D8 & D9).
  destruct (duty_up_bounds c Bc) as (Ue & Ub).
  destruct (duty_down_bounds c Bc) as (De & Db).
  rewrite C4 in Ue, De. rewrite C1, C2, C3.
  set (pc := (VBAT_MEAS_2 r * inject_Z (integral_avg m))%Q) in *.
  destruct (Qlt_bool 0 (pc - p_prev m)) eqn:P.
  - apply Qlt_bool_iff in P.
    destruct (duty_inc m) eqn:I; fields;
      rewrite ?U8, ?D8, ?U9, ?D9, ?Ue, ?De, <- ?Ue, <- ?De;
      repeat split; auto; try lia; intros; try lra;
      rewrite ?Ue, ?De; reflexivity.
  - apply Qlt_bool_false_iff in P.
    destruct (Qlt_bool (pc - p_prev m) 0) eqn:M.
    + apply Qlt_bool_iff in M.
      destruct (duty_inc m) eqn:I; fields;
        rewrite ?U8, ?D8, ?U9, ?D9, ?Ue, ?De, <- ?Ue, <- ?De;
        repeat split; auto; try lia; intros; try lra;
        rewrite ?Ue, ?De; reflexivity.
    + apply Qlt_bool_false_iff in M. fields.
      repeat split; auto; try lia; intros; try lra.
Qed.

Lemma mppt_decide_duty_bounds (m : state) (r : readings) :
  D_MIN <= duty_cycle m <= D_MAX ->
  D_MIN <= duty_cycle (mppt_decide m r) <= D_MAX.
Proof.
  intro B. destruct (Z.eq_dec (num_integrals m) NUM_INT) as [N|N].
  - pose proof (mppt_decide_spec m r N B) as H.
    unfold perturb_and_observe in H. tauto.
  - unfold mppt_decide. apply Z.eqb_neq in N. now rewrite N.
Qed.

(** Every step other than INIT keeps the duty cycle within its bounds. *)
Lemma duty_cycle_bounds_step (s s' : state) (e : event) :
  cur_state s <> INIT ->
  D_MIN <= duty_cycle s <= D_MAX ->
  step s e = Some s' ->
  D_MIN <= duty_cycle s' <= D_MAX.
Proof.
  intros NI B H. destruct e as [r|]; simpl in H.
  - unfold loop in H. destruct (cur_state s) eqn:C; [congruence| | |].
    + unfold loop_INTEGRATE in H. fields.
      destruct (double_to_long _); [|discriminate].
      inversion H; subst; clear H. fields.
      destruct (new_integral s); fields; exact B.
    + inversion H; subst; clear H. unfold loop_MPPT.
      apply mppt_decide_duty_bounds.
      pose proof (mppt_check_fields s r) as A.
      pose proof (mppt_fold_fields (mppt_check s r)) as F.
      cbv zeta in A, F.
      destruct A as (_ & _ & A3 & _). destruct F as (F1 & _).
      rewrite F1, A3. exact B.
    + inversion H; subst; clear H. unfold loop_DONE. fields.
      pose proof (check_battery_fields (VBAT_MEAS r)
                    (set_SW1_PWM false (set_timer_on false s))) as F.
      cbv zeta in F. fields. destruct F as (_ & F & _).
      destruct (_ && _); fields; rewrite F; exact B.
  - inversion H; subst; clear H. unfold pwm_handler.
    destruct (timer_on s); [|exact B]. fields. branches; exact B.
Qed.


(** The handler's assignment to [cur_state] is what [pwm_signal] reports. *)
Lemma pwm_signal_cur_state (s : state) :
  cur_state (pwm_handler s) =
  match pwm_signal s with Some p => p | None => cur_state s end.
Proof.
  unfold pwm_handler, pwm_signal. destruct (timer_on s); [|reflexivity].
  fields. branches; reflexivity.
Qed.

(** Once DONE is set and the timer is off, the decision block leaves them
    so. *)
Lemma mppt_decide_done (m : state) (r : readings) :
  cur_state m = DONE -> timer_on m = false ->
  cur_state (mppt_decide m r) = DONE /\ timer_on (mppt_decide m r) = false.
Proof.
  intros C T. unfold mppt_decide.
  destruct (num_integrals m =? NUM_INT); [|tauto].
  assert (K : cur_state (check_battery (VBAT_MEAS_2 r) m) = DONE /\
              timer_on (check_battery (VBAT_MEAS_2 r) m) = false).
  { unfold check_battery. fields. destruct (Qle_bool _ _); fields; auto. }
  destruct K as (K1 & K2). cbv zeta.
  set (c := set_p_cur _ _).
  assert (Cc : cur_state c = DONE /\ timer_on c = false)
    by (subst c; fields; auto).
  destruct Cc as (Cc1 & Cc2).
  pose proof (duty_up_fields c) as U. pose proof (duty_down_fields c) as D.
  cbv zeta in U, D.
  destruct U as (U1 & U2 & _). destruct D as (D1 & D2 & _).
  destruct (Qlt_bool 0 _); [|destruct (Qlt_bool _ 0)];
    try match goal with
        | |- context [if duty_inc ?x then _ else _] => destruct (duty_inc x)
        end; fields; split; congruence.
Qed.

(** The checks at the top of MPPT set DONE and stop the timer when the
    battery is charged or the panel is too low. *)
Lemma mppt_check_done (s : state) (r : readings) :
  (VCHARGE <= VBAT_MEAS r)%Q \/
  (VSOL_MEAS r * inject_Z D_MAX / (100 # 1) < VBAT_MEAS r)%Q ->
  cur_state (mppt_check s r) = DONE /\ timer_on (mppt_check s r) = false.
Proof.
  intro H. unfold mppt_check, check_battery, solar_at_D_MAX. fields.
  destruct (Qle_bool VCHARGE (VBAT_MEAS r)) eqn:E; fields.
  - destruct (Qlt_bool _ _); fields; auto.
  - destruct H as [H|H].
    + apply Qle_bool_iff in H. congruence.
    + apply Qlt_bool_iff in H. rewrite H. fields. auto.
Qed.

Lemma mppt_fold_skipped (s : state) :
  new_integral s = false -> mppt_fold s = s.
Proof. intro H. unfold mppt_fold. now rewrite H. Qed.

Lemma mppt_fold_entry (s : state) :
  new_integral s = true ->
  SW1_PWM (mppt_fold s) = false /\
  integral_avg (mppt_fold s) = Z.shiftr (long (integral_avg s + integral s)) 1 /\
  num_integrals (mppt_fold s) = uchar (num_integrals s + 1) /\
  integral (mppt_fold s) = 0 /\
  new_integral (mppt_fold s) = false.
Proof. intro H. unfold mppt_fold. rewrite H. fields. auto. Qed.

(** ** The integrator *)

Lemma double_to_long_comp (p q : Q) :
  (p == q)%Q -> double_to_long p = double_to_long q.
Proof. intro E. unfold double_to_long. now rewrite (Qtrunc_comp p q E). Qed.

Lemma half_sum_l (a b : Q) : (a + (b - a) / (2 # 1) == (a + b) / (2 # 1))%Q.
Proof. field. Qed.

Lemma half_sum_r (a b : Q) : (b + (a - b) / (2 # 1) == (a + b) / (2 # 1))%Q.
Proof. field. Qed.

Lemma integrand_plain (s : state) :
  (integrand s ==
   (vl_prev s + vl_cur s) / (2 # 1) * inject_Z (ulong (t_cur s - t_prev s)))%Q.
Proof.
  unfold integrand. destruct (Qle_bool (vl_prev s) (vl_cur s)).
  - now rewrite half_sum_l.
  - now rewrite half_sum_r.
Qed.






(** ** Properties of the specification *)

Lemma after_reachable (es : list event) (s : state) :
  run setup es = Some s -> reachable (after es).
Proof. intro H. exists es. unfold after. now rewrite H. Qed.

(** *** Duty-cycle bounds *)

(** C1. The specification asks that D_MIN <= duty_cycle <= D_MAX hold in
    every reachable state, also right after the seeding in INIT.  INIT stores
    the seed without a clamp: powered up with battery and panel both at 12 V
    the charger reaches a state whose duty cycle is 100, and with the ADC
    codes 4 and 2 (10.56 V and about 9 V) one whose duty cycle is 117, both
    above D_MAX. *)
Theorem C1_init_seed_leaves_bounds :
  (reachable (after trace_equal_volts) /\
   duty_cycle (after trace_equal_volts) = 100 /\
   ~ (D_MIN <= duty_cycle (after trace_equal_volts) <= D_MAX)) /\
  (reachable (after trace_low_panel) /\
   duty_cycle (after trace_low_panel) = 117 /\
   ~ (D_MIN <= duty_cycle (after trace_low_panel) <= D_MAX)).
Proof.
  split; (split; [|split]);
    try (eapply after_reachable; vm_compute; reflexivity);
    try (vm_compute; reflexivity);
    vm_compute; intros [_ H]; apply H; reflexivity.
Qed.

(** *** The seed computed by INIT *)

Example init_zero_solar : loop setup (volts (12 # 1) 0%Q) = None.
Proof. reflexivity. Qed.

Example init_seed_below_D_MIN :
  option_map duty_cycle (loop setup (volts (1 # 2) (16 # 1))) = Some 3.
Proof. reflexivity. Qed.




(** *** The phase signalled by the handler *)

(** C3, as the specification states it, fails: 99 timer interrupts after a
    power-up at 12 V / 18 V the timer is on and the next call of the handler
    assigns neither INTEGRATE nor MPPT; it only resets the counter. *)
Lemma C3_wrap_counterexample :
  ~ (forall s, reachable s -> timer_on s = true ->
       pwm_signal s = Some INTEGRATE \/ pwm_signal s = Some MPPT).
Proof.
  intro H.
  specialize (H (after (trace_12_18 ++ repeat Tick 99))).
  destruct H as [H|H].
  - eapply after_reachable. vm_compute. reflexivity.
  - vm_compute. reflexivity.
  - vm_compute in H. discriminate.
  - vm_compute in H. discriminate.
Qed.

(** C3, amended.  While timer_on is true a call of the handler assigns at
    most one phase, chosen by the incremented pwm_count alone: INTEGRATE when
    it is at most duty_cycle, MPPT when it is above duty_cycle and below 100;
    when it is above duty_cycle and at least 100 the handler assigns no phase,
    leaves cur_state as it was and resets pwm_count to 0. *)
Theorem C3_phase_signal (s : state) :
  timer_on s = true ->
  let c := uchar (pwm_count s + 1) in
  (c <= duty_cycle s ->
     pwm_signal s = Some INTEGRATE /\ cur_state (pwm_handler s) = INTEGRATE) /\
  (duty_cycle s < c < 100 ->
     pwm_signal s = Some MPPT /\ cur_state (pwm_handler s) = MPPT) /\
  (duty_cycle s < c /\ 100 <= c ->
     pwm_signal s = None /\ cur_state (pwm_handler s) = cur_state s /\
     pwm_count (pwm_handler s) = 0).
Proof.
  intros T c. unfold pwm_handler, pwm_signal. rewrite T. fields. fold c.
  repeat split; intros.
  - replace (c <=? duty_cycle s) with true by (symmetry; apply Z.leb_le; lia).
    reflexivity.
  - replace (c <=? duty_cycle s) with true by (symmetry; apply Z.leb_le; lia).
    reflexivity.
  - replace (c <=? duty_cycle s) with false by (symmetry; apply Z.leb_gt; lia).
    replace (duty_cycle s <? c) with true by (symmetry; apply Z.ltb_lt; lia).
    replace (c <? 100) with true by (symmetry; apply Z.ltb_lt; lia).
    reflexivity.
  - replace (c <=? duty_cycle s) with false by (symmetry; apply Z.leb_gt; lia).
    replace (duty_cycle s <? c) with true by (symmetry; apply Z.ltb_lt; lia).
    replace (c <? 100) with true by (symmetry; apply Z.ltb_lt; lia).
    reflexivity.
  - replace (c <=? duty_cycle s) with false by (symmetry; apply Z.leb_gt; lia).
    replace (c <? 100) with false by (symmetry; apply Z.ltb_ge; lia).
    rewrite andb_false_r. reflexivity.
  - replace (c <=? duty_cycle s) with false by (symmetry; apply Z.leb_gt; lia).
    replace (c <? 100) with false by (symmetry; apply Z.ltb_ge; lia).
    rewrite andb_false_r.
    replace (100 <=? c) with true by (symmetry; apply Z.leb_le; lia).
    reflexivity.
  - replace (c <=? duty_cycle s) with false by (symmetry; apply Z.leb_gt; lia).
    replace (c <? 100) with false by (symmetry; apply Z.ltb_ge; lia).
    rewrite andb_false_r.
    replace (100 <=? c) with true by (symmetry; apply Z.leb_le; lia).
    reflexivity.
Qed.

(** The amended C3 at the state 66 interrupts after a power-up at
    12 V / 18 V. *)
Lemma C3_phase_signal_witness :
  timer_on (after (trace_12_18 ++ repeat Tick 66)) = true /\
  let s := after (trace_12_18 ++ repeat Tick 66) in
  let c := uchar (pwm_count s + 1) in
  (c <= duty_cycle s ->
     pwm_signal s = Some INTEGRATE /\ cur_state (pwm_handler s) = INTEGRATE) /\
  (duty_cycle s < c < 100 ->
     pwm_signal s = Some MPPT /\ cur_state (pwm_handler s) = MPPT) /\
  (duty_cycle s < c /\ 100 <= c ->
     pwm_signal s = None /\ cur_state (pwm_handler s) = cur_state s /\
     pwm_count (pwm_handler s) = 0).
Proof.
  assert (T : timer_on (after (trace_12_18 ++ repeat Tick 66)) = true)
    by (vm_compute; reflexivity).
  split; [exact T|].
  exact (C3_phase_signal (after (trace_12_18 ++ repeat Tick 66)) T).
Defined.

(** *** The range of the PWM counter *)

(** C4. The specification asks that pwm_count stay below 100 at every
    boundary between steps.  After either power-up of C1 (duty cycle seeded
    to 100 or to 117) the handler's first test accepts the count 100, the
    reset of the last branch is not reached, and after 100 interrupts
    pwm_count is 100. *)
Theorem C4_counter_reaches_100 :
  (reachable (after (trace_equal_volts ++ repeat Tick 100)) /\
   timer_on (after (trace_equal_volts ++ repeat Tick 100)) = true /\
   pwm_count (after (trace_equal_volts ++ repeat Tick 100)) = 100 /\
   ~ (0 <= pwm_count (after (trace_equal_volts ++ repeat Tick 100)) < 100)) /\
  (reachable (after (trace_low_panel ++ repeat Tick 100)) /\
   timer_on (after (trace_low_panel ++ repeat Tick 100)) = true /\
   pwm_count (after (trace_low_panel ++ repeat Tick 100)) = 100 /\
   ~ (0 <= pwm_count (after (trace_low_panel ++ repeat Tick 100)) < 100)).
Proof.
  split; (split; [|split; [|split]]);
    try (eapply after_reachable; vm_compute; reflexivity);
    try (vm_compute; reflexivity);
    vm_compute; intros [_ H]; discriminate.
Qed.

(** *** The MPPT decision *)



(** *** The work done on entry to MPPT *)

(** C6. On the MPPT pass that finds new_integral set, the entry block drives
    the switch OFF, replaces integral_avg by (integral_avg + integral) / 2
    (the division rounds down, as the shift does), adds one to num_integrals,
    zeroes integral and clears new_integral; these survive the rest of the
    pass, and the next MPPT pass skips the block. *)
Theorem C6_entry_fold (s : state) (r : readings) :
  cur_state s = MPPT ->
  new_integral s = true ->
  LONG_MIN <= integral_avg s + integral s <= LONG_MAX ->
  0 <= num_integrals s < 255 ->
  let m := mppt_fold (mppt_check s r) in
  let s' := loop_MPPT s r in
  loop s r = Some s' /\ s' = mppt_decide m r /\
  SW1_PWM m = false /\
  integral_avg m = (integral_avg s + integral s) / 2 /\
  num_integrals m = num_integrals s + 1 /\
  integral m = 0 /\
  new_integral m = false /\
  SW1_PWM s' = false /\
  integral_avg s' = (integral_avg s + integral s) / 2 /\
  integral s' = 0 /\
  new_integral s' = false /\
  (forall r', mppt_fold (mppt_check s' r') = mppt_check s' r').
Proof.
  intros C E R N m s'.
  pose proof (mppt_check_fields s r) as A. cbv zeta in A.
  destruct A as (_ & _ & _ & _ & A5 & _ & A7 & A8 & A9 & _).
  assert (E' : new_integral (mppt_check s r) = true) by congruence.
  destruct (mppt_fold_entry _ E') as (F1 & F2 & F3 & F4 & F5).
  fold m in F1, F2, F3, F4, F5.
  rewrite A7, A8, long_small, Z.shiftr_div_pow2 in F2 by lia.
  change (2 ^ 1) with 2 in F2.
  rewrite A9, uchar_small in F3 by lia.
  pose proof (mppt_decide_fields m r) as D. cbv zeta in D.
  destruct D as (_ & D2 & D3 & D4 & D5 & _).
  assert (S' : s' = mppt_decide m r) by reflexivity.
  assert (K : new_integral s' = false) by (rewrite S', D2; exact F5).
  repeat split; auto.
  - unfold loop. now rewrite C.
  - rewrite S', D3. exact F1.
  - rewrite S', D5. exact F2.
  - rewrite S', D4. exact F4.
  - intro r'. apply mppt_fold_skipped.
    pose proof (mppt_check_fields s' r') as A'. cbv zeta in A'.
    destruct A' as (_ & _ & _ & _ & A5' & _). congruence.
Qed.

(** C6 at the tenth MPPT entry after power-up: the average 1994 and the
    integral 2000 fold into 1997. *)
Lemma C6_entry_fold_witness :
  cur_state (after trace_tenth_entry) = MPPT /\
  new_integral (after trace_tenth_entry) = true /\
  LONG_MIN <= integral_avg (after trace_tenth_entry)
              + integral (after trace_tenth_entry) <= LONG_MAX /\
  0 <= num_integrals (after trace_tenth_entry) < 255 /\
  let m := mppt_fold (mppt_check (after trace_tenth_entry)
                                 (charging 0%Q 10000)) in
  SW1_PWM m = false /\ integral_avg m = 1997 /\ num_integrals m = 10 /\
  integral m = 0 /\ new_integral m = false.
Proof.
  assert (C : cur_state (after trace_tenth_entry) = MPPT)
    by (vm_compute; reflexivity).
  assert (E : new_integral (after trace_tenth_entry) = true)
    by (vm_compute; reflexivity).
  assert (R : LONG_MIN <= integral_avg (after trace_tenth_entry)
                          + integral (after trace_tenth_entry) <= LONG_MAX)
    by (vm_compute; split; discriminate).
  assert (N : 0 <= num_integrals (after trace_tenth_entry) < 255)
    by (vm_compute; split; [discriminate | reflexivity]).
  split; [exact C | split; [exact E | split; [exact R | split; [exact N|]]]].
  destruct (C6_entry_fold _ (charging 0%Q 10000) C E R N)
    as (_ & _ & F1 & F2 & F3 & F4 & F5 & _).
  repeat apply conj; [exact F1 | exact F2 | exact F3 | exact F4 | exact F5].
Defined.

(** *** Not enough solar *)



(** *** DONE does not cut the MPPT pass short *)



(** *** The integrator *)


(** The same loss with readings the ADC can return: with the inductor code
    6 sampled every 128 microseconds, ten passes leave integral at -320 while
    the trapezoidal sum is below -322. *)
Example integrate_adc_samples :
  option_map integral (integrate_samples (after trace_adc_power_up) adc_samples)
  = Some (-320) /\
  (trapezoidal_sum (vl_prev (after trace_adc_power_up))
     (t_prev (after trace_adc_power_up)) adc_samples < - (322 # 1))%Q.
Proof. split; vm_compute; reflexivity. Qed.



(** *** The two branches of the integration *)


(** ** Further properties of the code *)

(** *** What each block writes *)

Lemma check_battery_state (vbat : Q) (s : state) :
  ((VCHARGE <= vbat)%Q ->
     cur_state (check_battery vbat s) = DONE /\
     timer_on (check_battery vbat s) = false) /\
  ((vbat < VCHARGE)%Q ->
     cur_state (check_battery vbat s) = cur_state s /\
     timer_on (check_battery vbat s) = timer_on s).
Proof.
  unfold check_battery. fields.
  destruct (Qle_bool VCHARGE vbat) eqn:E; fields.
  - split; [auto|]. apply Qle_bool_iff in E. intro L.
    exfalso. exact (Qlt_not_le _ _ L E).
  - split; [|auto]. intro L. apply Qle_bool_iff in L. congruence.
Qed.

Lemma double_to_long_range (q : Q) (i : Z) :
  double_to_long q = Some i -> LONG_MIN <= i <= LONG_MAX.
Proof.
  unfold double_to_long.
  destruct ((LONG_MIN <=? Qtrunc q) && (Qtrunc q <=? LONG_MAX)) eqn:E;
    [|discriminate].
  intro H. inversion H; subst.
  apply andb_true_iff in E. destruct E as (E1 & E2).
  apply Z.leb_le in E1, E2. lia.
Qed.

Lemma long_range (z : Z) : LONG_MIN <= long z <= LONG_MAX.
Proof.
  unfold long, LONG_MIN, LONG_MAX.
  pose proof (Z.mod_pos_bound (z + 2 ^ 31) (2 ^ 32)). lia.
Qed.

Lemma uchar_range (z : Z) : 0 <= uchar z < 256.
Proof. unfold uchar. apply Z.mod_pos_bound. lia. Qed.

Lemma duty_up_range (s : state) : 0 <= duty_cycle (duty_up s) < 256.
Proof.
  unfold duty_up. fields. pose proof (uchar_range (duty_cycle s + 1)).
  destruct (D_MAX <=? _); fields; unfold D_MAX; lia.
Qed.

Lemma duty_down_range (s : state) : 0 <= duty_cycle (duty_down s) < 256.
Proof.
  unfold duty_down. fields. pose proof (uchar_range (duty_cycle s - 1)).
  destruct (_ <=? D_MIN); fields; unfold D_MIN; lia.
Qed.

(** The result of a defined INIT pass, variable by variable. *)
Lemma loop_INIT_result (s s' : state) (r : readings) :
  loop_INIT s r = Some s' ->
  pwm_count s' = 0 /\ num_integrals s' = 0 /\ integral s' = 0 /\
  integral_avg s' = 0 /\ new_integral s' = false /\ duty_inc s' = true /\
  p_cur s' = 0%Q /\ p_prev s' = 0%Q /\
  v_battery s' = VBAT_MEAS r /\ v_solar s' = VSOL_MEAS r /\
  vl_prev s' = VL_MEAS r /\ t_cur s' = micros r /\ t_prev s' = micros r /\
  cur_state s' = INTEGRATE /\ timer_on s' = true /\
  SW1_PWM s' = SW1_PWM s /\ vl_cur s' = vl_cur s /\
  init_duty (VBAT_MEAS r) (VSOL_MEAS r) = Some (duty_cycle s').
Proof.
  unfold loop_INIT. fields.
  match goal with
  | |- context [check_battery ?v ?x] =>
      pose proof (check_battery_fields v x) as F; cbv zeta in F; fields;
      destruct F as (F1 & _ & F3 & F4 & F5 & F6 & F7 & F8 & F9 & F10 & _);
      assert (G : p_cur (check_battery v x) = 0%Q /\
                  vl_cur (check_battery v x) = vl_cur s)
        by (unfold check_battery; fields; destruct (Qle_bool _ _); fields;
            auto);
      destruct G as (G1 & G2)
  end.
  rewrite F1.
  destruct (init_duty (VBAT_MEAS r) (VSOL_MEAS r)) as [d|]; [|discriminate].
  intro H. inversion H; subst; clear H. fields.
  repeat apply conj; auto.
Qed.

(** The result of a defined INTEGRATE pass: only the integral, the
    previous sample, the entry flag and the pin are written. *)
Lemma loop_INTEGRATE_result (s s' : state) (r : readings) :
  loop_INTEGRATE s r = Some s' ->
  cur_state s' = cur_state s /\ timer_on s' = timer_on s /\
  duty_cycle s' = duty_cycle s /\ pwm_count s' = pwm_count s /\
  num_integrals s' = num_integrals s /\ integral_avg s' = integral_avg s /\
  v_battery s' = v_battery s /\ v_solar s' = v_solar s /\
  p_prev s' = p_prev s /\ duty_inc s' = duty_inc s /\
  new_integral s' = true /\
  SW1_PWM s' = (if new_integral s then SW1_PWM s else true) /\
  vl_prev s' = VL_MEAS r /\ t_prev s' = micros r /\
  LONG_MIN <= integral s' <= LONG_MAX /\
  double_to_long
    (inject_Z (integral s)
     + (vl_prev s + VL_MEAS r) / (2 # 1)
       * inject_Z (ulong (micros r - t_prev s)))
  = Some (integral s').
Proof.
  unfold loop_INTEGRATE. fields.
  match goal with
  | |- context [double_to_long ?x] =>
      assert (E : (x == inject_Z (integral s)
                        + (vl_prev s + VL_MEAS r) / (2 # 1)
                          * inject_Z (ulong (micros r - t_prev s)))%Q)
  end.
  { rewrite integrand_plain. destruct (new_integral s); fields; reflexivity. }
  rewrite (double_to_long_comp _ _ E).
  destruct (double_to_long _) as [i|] eqn:D; [|discriminate].
  pose proof (double_to_long_range _ _ D) as R.
  intro H. inversion H; subst; clear H. fields.
  destruct (new_integral s); fields; repeat apply conj; auto; lia.
Qed.

Lemma pwm_handler_frame (s : state) :
  let s' := pwm_handler s in
  duty_cycle s' = duty_cycle s /\ timer_on s' = timer_on s /\
  new_integral s' = new_integral s /\ SW1_PWM s' = SW1_PWM s /\
  num_integrals s' = num_integrals s /\ integral s' = integral s /\
  integral_avg s' = integral_avg s /\ v_battery s' = v_battery s /\
  (0 <= pwm_count s < 256 -> 0 <= pwm_count s' < 256) /\
  (cur_state s' = cur_state s \/
   timer_on s = true /\ (cur_state s' = INTEGRATE \/ cur_state s' = MPPT)).
Proof.
  unfold pwm_handler. destruct (timer_on s) eqn:T; [|cbv zeta; tauto].
  fields. pose proof (uchar_range (pwm_count s + 1)).
  branches; repeat apply conj; auto; lia.
Qed.

(** Where an MPPT pass leaves the state variable and the timer. *)
Lemma mppt_check_state (s : state) (r : readings) :
  ((VCHARGE <= VBAT_MEAS r)%Q \/
   (VSOL_MEAS r * inject_Z D_MAX / (100 # 1) < VBAT_MEAS r)%Q ->
     cur_state (mppt_check s r) = DONE /\ timer_on (mppt_check s r) = false) /\
  ((VBAT_MEAS r < VCHARGE)%Q ->
   (VBAT_MEAS r <= VSOL_MEAS r * inject_Z D_MAX / (100 # 1))%Q ->
     cur_state (mppt_check s r) = cur_state s /\
     timer_on (mppt_check s r) = timer_on s).
Proof.
  split; [apply mppt_check_done|].
  intros B L. unfold mppt_check, check_battery, solar_at_D_MAX. fields.
  destruct (Qle_bool VCHARGE (VBAT_MEAS r)) eqn:E1; fields.
  - apply Qle_bool_iff in E1. exfalso. exact (Qlt_not_le _ _ B E1).
  - destruct (Qlt_bool _ _) eqn:E2; fields; [|auto].
    apply Qlt_bool_iff in E2. exfalso. exact (Qlt_not_le _ _ E2 L).
Qed.

Lemma mppt_decide_state (m : state) (r : readings) :
  let s' := mppt_decide m r in
  (num_integrals m = NUM_INT -> (VCHARGE <= VBAT_MEAS_2 r)%Q ->
     cur_state s' = DONE /\ timer_on s' = false) /\
  (num_integrals m <> NUM_INT \/ (VBAT_MEAS_2 r < VCHARGE)%Q ->
     cur_state s' = cur_state m /\ timer_on s' = timer_on m) /\
  num_integrals s' = (if num_integrals m =? NUM_INT then 0
                      else num_integrals m) /\
  (0 <= duty_cycle m < 256 -> 0 <= duty_cycle s' < 256).
Proof.
  cbv zeta. unfold mppt_decide.
  destruct (num_integrals m =? NUM_INT) eqn:N.
  - apply Z.eqb_eq in N.
    destruct (check_battery_state (VBAT_MEAS_2 r) m) as (K1 & K2).
    pose proof (check_battery_fields (VBAT_MEAS_2 r) m) as F. cbv zeta in F.
    destruct F as (_ & F2 & _).
    set (c := set_p_cur _ _).
    assert (Cc : cur_state c = cur_state (check_battery (VBAT_MEAS_2 r) m) /\
                 timer_on c = timer_on (check_battery (VBAT_MEAS_2 r) m) /\
                 duty_cycle c = duty_cycle m)
      by (subst c; fields; auto).
    destruct Cc as (Cc1 & Cc2 & Cc3).
    pose proof (duty_up_fields c) as U. pose proof (duty_down_fields c) as D.
    cbv zeta in U, D.
    destruct U as (U1 & U2 & _). destruct D as (D1 & D2 & _).
    pose proof (duty_up_range c) as Ur. pose proof (duty_down_range c) as Dr.
    destruct (Qlt_bool 0 _); [|destruct (Qlt_bool _ 0)];
      try match goal with
          | |- context [if duty_inc ?x then _ else _] => destruct (duty_inc x)
          end; fields;
      (repeat apply conj;
       [ intros _ L; destruct (K1 L); split; congruence
       | intros [L|L]; [congruence | destruct (K2 L); split; congruence]
       | reflexivity
       | intro; lia ]).
  - apply Z.eqb_neq in N. repeat apply conj; auto.
    + intros E. contradiction.
Qed.

Lemma half_range (z : Z) :
  LONG_MIN <= z <= LONG_MAX -> LONG_MIN <= z / 2 <= LONG_MAX.
Proof.
  unfold LONG_MIN, LONG_MAX. intro H.
  pose proof (Z_div_mod_eq_full z 2).
  pose proof (Z.mod_pos_bound z 2 ltac:(lia)). lia.
Qed.

Lemma mppt_fold_ranges (d : state) :
  0 <= num_integrals d < NUM_INT ->
  LONG_MIN <= integral d <= LONG_MAX ->
  LONG_MIN <= integral_avg d <= LONG_MAX ->
  0 <= num_integrals (mppt_fold d) <= NUM_INT /\
  LONG_MIN <= integral (mppt_fold d) <= LONG_MAX /\
  LONG_MIN <= integral_avg (mppt_fold d) <= LONG_MAX.
Proof.
  unfold NUM_INT. intros N I A. unfold mppt_fold.
  destruct (new_integral d); fields.
  - rewrite uchar_small by lia. rewrite Z.shiftr_div_pow2 by lia.
    change (2 ^ 1) with 2.
    pose proof (half_range _ (long_range (integral_avg d + integral d))).
    unfold LONG_MIN, LONG_MAX in *. repeat apply conj; lia.
  - repeat apply conj; lia.
Qed.

(** *** Invariants of every execution *)

Lemma machine_inv_setup : machine_inv setup.
Proof.
  unfold machine_inv, setup, NUM_INT, LONG_MIN, LONG_MAX. cbn.
  repeat apply conj; try reflexivity; try lia; try discriminate.
  - intros [H|H]; discriminate.
Qed.

Lemma machine_inv_step (s s' : state) (e : event) :
  machine_inv s -> step s e = Some s' -> machine_inv s'.
Proof.
  unfold machine_inv.
  intros (I1 & I2 & I3 & I4 & I5 & I6 & I7 & I8) H.
  destruct e as [r|]; simpl in H.
  - unfold loop in H. destruct (cur_state s) eqn:C.
    + pose proof (loop_INIT_result _ _ _ H)
        as (R1 & R2 & R3 & R4 & R5 & R6 & _ & _ & _ & _ & _ & _ & _ & R14
            & R15 & R16 & _ & R18).
      assert (Dr : 0 <= duty_cycle s' < 256).
      { unfold init_duty in R18. destruct (Qeq_bool _ _); [discriminate|].
        destruct (double_to_char _); [|discriminate].
        simpl in R18. inversion R18. apply uchar_range. }
      rewrite R1, R2, R3, R4, R5, R14, R15, R16, I3 by auto.
      unfold NUM_INT, LONG_MIN, LONG_MAX.
      repeat apply conj; auto; try lia; try discriminate.
    + pose proof (loop_INTEGRATE_result _ _ _ H)
        as (R1 & R2 & R3 & R4 & R5 & R6 & _ & _ & _ & _ & R11 & R12 & _ & _
            & R15 & _).
      rewrite R1, R2, R3, R4, R5, R6, R11, R12, C.
      repeat apply conj; auto; try tauto; try lia.
      * rewrite I2. now destruct (new_integral s).
      * intros [K|K]; discriminate.
    + inversion H; subst; clear H. unfold loop_MPPT.
      pose proof (mppt_check_fields s r) as A. cbv zeta in A.
      destruct A as (_ & _ & A3 & A4 & A5 & A6 & A7 & A8 & A9 & _).
      pose proof (mppt_fold_fields (mppt_check s r)) as F. cbv zeta in F.
      destruct F as (F1 & F2 & F3 & F4 & _ & _ & _ & _ & F9 & F10).
      set (d := mppt_check s r) in *. set (m := mppt_fold d) in *.
      pose proof (mppt_decide_fields m r) as D. cbv zeta in D.
      destruct D as (D1 & D2 & D3 & D4 & D5 & _).
      pose proof (mppt_decide_state m r) as S. cbv zeta in S.
      destruct S as (S1 & S2 & S3 & S4).
      assert (Sw : SW1_PWM m = false).
      { destruct F10 as [K|[K1 K2]]; [exact K|]. congruence. }
      assert (Tm : timer_on s = true) by (apply I1; auto).
      assert (St : (cur_state d = DONE /\ timer_on d = false) \/
                   (cur_state d = MPPT /\ timer_on d = true)).
      { destruct (Qlt_le_dec (VBAT_MEAS r) VCHARGE) as [B|B].
        - destruct (Qlt_le_dec (VSOL_MEAS r * inject_Z D_MAX / (100 # 1))
                               (VBAT_MEAS r)) as [L|L].
          + left. apply mppt_check_state. auto.
          + right. destruct (mppt_check_state s r) as (_ & K).
            destruct (K B L). unfold d. split; congruence.
        - left. apply mppt_check_state. auto. }
      assert (Sm : (cur_state m = DONE /\ timer_on m = false) \/
                   (cur_state m = MPPT /\ timer_on m = true)).
      { rewrite F3, F4. exact St. }
      assert (Sf : (cur_state (mppt_decide m r) = DONE /\
                    timer_on (mppt_decide m r) = false) \/
                   (cur_state (mppt_decide m r) = MPPT /\
                    timer_on (mppt_decide m r) = true)).
      { destruct Sm as [(K1 & K2)|(K1 & K2)].
        - left. now apply mppt_decide_done.
        - destruct (Z.eq_dec (num_integrals m) NUM_INT) as [N|N].
          + destruct (Qlt_le_dec (VBAT_MEAS_2 r) VCHARGE) as [B|B].
            * right. destruct S2 as (S2a & S2b); [auto|]. split; congruence.
            * left. now apply S1.
          + right. destruct S2 as (S2a & S2b); [auto|]. split; congruence. }
      assert (Rg : 0 <= num_integrals m <= NUM_INT /\
                   LONG_MIN <= integral m <= LONG_MAX /\
                   LONG_MIN <= integral_avg m <= LONG_MAX).
      { apply mppt_fold_ranges; [rewrite A9 | rewrite A7 | rewrite A8];
          assumption. }
      destruct Rg as (Nm & Im & Am).
      rewrite D1, D2, D3, D4, D5, S3, F9, Sw, F2, A4.
      split.
      { destruct Sf as [(K1 & K2)|(K1 & K2)]; rewrite K1, K2;
          (split; [intro; try discriminate; auto
                  | intros [K|K]; try discriminate; auto]). }
      split; [reflexivity|]. split; [auto|]. split.
      { destruct (num_integrals m =? NUM_INT) eqn:N; unfold NUM_INT in *;
          [lia|]. apply Z.eqb_neq in N. lia. }
      split; [apply S4; rewrite F1, A3; exact I5|].
      split; [exact I6|]. split; [exact Im | exact Am].
    + inversion H; subst; clear H. unfold loop_DONE. fields.
      match goal with
      | |- context [check_battery ?v ?x] =>
          pose proof (check_battery_fields v x) as F; cbv zeta in F; fields;
          destruct F as (_ & F2 & F3 & F4 & F5 & F6 & F7 & F8 & _ & _ & _
                         & F12);
          assert (T : timer_on (check_battery v x) = false)
            by (unfold check_battery; fields;
                destruct (Qle_bool _ _); fields; auto)
      end.
      assert (Nf : new_integral s = false).
      { rewrite <- I2. apply I3. auto. }
      destruct (_ && _); fields; rewrite ?T, ?F2, ?F3, ?F4, ?F5, ?F6, ?F7,
        ?F8, ?Nf; repeat apply conj; auto; try lia; try discriminate;
        try (intros [K|K]; discriminate);
        destruct F12 as [K|K]; rewrite K, ?C; intros [Z|Z]; discriminate.
  - inversion H; subst; clear H.
    pose proof (pwm_handler_frame s) as F. cbv zeta in F.
    destruct F as (F1 & F2 & F3 & F4 & F5 & F6 & F7 & _ & F9 & F10).
    rewrite F1, F2, F3, F4, F5, F6, F7.
    split.
    { destruct F10 as [K|(K1 & K2)]; [rewrite K; exact I1 | tauto]. }
    split; [exact I2|]. split.
    { destruct F10 as [K|(K1 & K2)]; [rewrite K; exact I3|].
      intros [Z|Z]; destruct K2; congruence. }
    split; [exact I4|]. split; [exact I5|].
    split; [apply F9; exact I6|]. split; [exact I7 | exact I8].
Qed.

Lemma machine_inv_reachable (s : state) : reachable s -> machine_inv s.
Proof.
  apply reachable_ind; [exact machine_inv_setup|].
  intros a e b. apply machine_inv_step.
Qed.

(** X1. Between two steps the timer runs exactly when the state is one of
    the two phases the handler drives: INIT and DONE are only ever seen with
    the timer off, INTEGRATE and MPPT only with the timer on. *)
Theorem timer_runs_exactly_in_phases (s : state) :
  reachable s ->
  (timer_on s = true <-> cur_state s = INTEGRATE \/ cur_state s = MPPT).
Proof. intro R. now destruct (machine_inv_reachable s R) as (I1 & _). Qed.

(** X1 at the tenth MPPT entry after power-up. *)
Lemma timer_runs_exactly_in_phases_witness :
  reachable (after trace_tenth_entry) /\
  (timer_on (after trace_tenth_entry) = true <->
   cur_state (after trace_tenth_entry) = INTEGRATE \/
   cur_state (after trace_tenth_entry) = MPPT).
Proof.
  assert (R : reachable (after trace_tenth_entry))
    by (eapply after_reachable; vm_compute; reflexivity).
  split; [exact R|]. exact (timer_runs_exactly_in_phases _ R).
Defined.

(** X2. Between two steps the switch pin is HIGH exactly while new_integral
    is set, and it is never HIGH with the timer stopped. *)
Theorem switch_high_only_while_integrating (s : state) :
  reachable s ->
  SW1_PWM s = new_integral s /\
  (SW1_PWM s = true ->
     timer_on s = true /\ (cur_state s = INTEGRATE \/ cur_state s = MPPT)).
Proof.
  intro R. destruct (machine_inv_reachable s R) as (I1 & I2 & I3 & _).
  split; [exact I2|]. intro H.
  assert (P : cur_state s = INTEGRATE \/ cur_state s = MPPT).
  { destruct (cur_state s); auto; rewrite I3 in H by auto; discriminate. }
  split; [apply I1|]; exact P.
Qed.

(** X2 at the tenth MPPT entry after power-up, where the pin is HIGH. *)
Lemma switch_high_only_while_integrating_witness :
  reachable (after trace_tenth_entry) /\
  SW1_PWM (after trace_tenth_entry) = true /\
  new_integral (after trace_tenth_entry) = true /\
  timer_on (after trace_tenth_entry) = true.
Proof.
  assert (R : reachable (after trace_tenth_entry))
    by (eapply after_reachable; vm_compute; reflexivity).
  destruct (switch_high_only_while_integrating _ R) as (E & T).
  assert (H : SW1_PWM (after trace_tenth_entry) = true)
    by (vm_compute; reflexivity).
  split; [exact R|]. split; [exact H|].
  split; [rewrite <- E; exact H | exact (proj1 (T H))].
Defined.

(** X3. After a pass through loop() the switch pin is HIGH exactly when the
    pass was an INTEGRATE pass: INTEGRATE leaves it HIGH, and INIT, MPPT and
    DONE leave it LOW. *)
Theorem switch_after_pass (s s' : state) (r : readings) :
  reachable s ->
  loop s r = Some s' ->
  (SW1_PWM s' = true <-> cur_state s = INTEGRATE).
Proof.
  intros R H.
  pose proof (reachable_step s s' (Loop r) R H) as R'.
  destruct (machine_inv_reachable s R) as (_ & J2 & J3 & _).
  destruct (machine_inv_reachable s' R') as (_ & I2 & _).
  rewrite I2. unfold loop in H. destruct (cur_state s) eqn:C.
  - apply loop_INIT_result in H.
    destruct H as (_ & _ & _ & _ & H & _). rewrite H.
    split; discriminate.
  - apply loop_INTEGRATE_result in H.
    destruct H as (_ & _ & _ & _ & _ & _ & _ & _ & _ & _ & H & _). rewrite H.
    split; reflexivity.
  - inversion H; subst; clear H. unfold loop_MPPT.
    pose proof (mppt_fold_fields (mppt_check s r)) as F. cbv zeta in F.
    destruct F as (_ & _ & _ & _ & _ & _ & _ & _ & F9 & _).
    pose proof (mppt_decide_fields (mppt_fold (mppt_check s r)) r) as D.
    cbv zeta in D. destruct D as (_ & D2 & _).
    rewrite D2, F9. split; discriminate.
  - inversion H; subst; clear H. rewrite <- I2.
    unfold loop_DONE. fields.
    match goal with
    | |- context [check_battery ?v ?x] =>
        pose proof (check_battery_fields v x) as F; cbv zeta in F; fields;
        destruct F as (_ & _ & _ & _ & F5 & _)
    end.
    destruct (_ && _); fields; rewrite F5; split; discriminate.
Qed.

(** X3 at the first INTEGRATE pass after power-up. *)
Lemma switch_after_pass_witness :
  reachable (after (trace_12_18 ++ [Tick])) /\
  loop (after (trace_12_18 ++ [Tick])) (charging (2 # 1) 1000)
  = Some (after (trace_12_18 ++ [Tick; Loop (charging (2 # 1) 1000)])) /\
  SW1_PWM (after (trace_12_18 ++ [Tick; Loop (charging (2 # 1) 1000)])) = true.
Proof.
  assert (R : reachable (after (trace_12_18 ++ [Tick])))
    by (eapply after_reachable; vm_compute; reflexivity).
  assert (L : loop (after (trace_12_18 ++ [Tick])) (charging (2 # 1) 1000)
              = Some (after (trace_12_18
                             ++ [Tick; Loop (charging (2 # 1) 1000)])))
    by (vm_compute; reflexivity).
  split; [exact R|]. split; [exact L|].
  apply (switch_after_pass _ _ _ R L). vm_compute. reflexivity.
Defined.

(** *** The passes that start and stop charging *)

(** What a DONE pass writes, from any state. *)
Lemma loop_DONE_result (s : state) (r : readings) :
  timer_on (loop_DONE s r) = false /\ SW1_PWM (loop_DONE s r) = false /\
  v_battery (loop_DONE s r) = VBAT_MEAS r /\
  v_solar (loop_DONE s r) = VSOL_MEAS r /\
  duty_cycle (loop_DONE s r) = duty_cycle s /\
  ((VBAT_MEAS r < VCHARGE)%Q ->
   (VBAT_MEAS r <= VSOL_MEAS r * inject_Z D_MAX / (100 # 1))%Q ->
     cur_state (loop_DONE s r) = INIT) /\
  ((VCHARGE <= VBAT_MEAS r)%Q -> cur_state (loop_DONE s r) = DONE) /\
  ((VSOL_MEAS r * inject_Z D_MAX / (100 # 1) < VBAT_MEAS r)%Q ->
     cur_state (loop_DONE s r) = DONE \/
     cur_state (loop_DONE s r) = cur_state s).
Proof.
  unfold loop_DONE, check_battery, solar_at_D_MAX. fields.
  destruct (Qle_bool VCHARGE (VBAT_MEAS r)) eqn:E1; fields.
  - apply Qle_bool_iff in E1.
    replace (Qlt_bool (VBAT_MEAS r) VCHARGE) with false
      by (symmetry; now apply Qlt_bool_false_iff).
    cbn [andb]. fields. repeat apply conj; auto.
    intro B. exfalso. exact (Qlt_not_le _ _ B E1).
  - assert (B : (VBAT_MEAS r < VCHARGE)%Q).
    { apply Qnot_le_lt. intro L. apply Qle_bool_iff in L. congruence. }
    replace (Qlt_bool (VBAT_MEAS r) VCHARGE) with true
      by (symmetry; now apply Qlt_bool_iff).
    cbn [andb].
    destruct (Qle_bool (VBAT_MEAS r) _) eqn:E2; fields.
    + apply Qle_bool_iff in E2. repeat apply conj; auto.
      * intro L. exfalso. exact (Qlt_not_le _ _ B L).
      * intro L. exfalso. exact (Qlt_not_le _ _ L E2).
    + repeat apply conj; auto.
      * intros _ L. apply Qle_bool_iff in L. congruence.
      * intro L. exfalso. exact (Qlt_not_le _ _ B L).
Qed.

(** X4. A DONE pass stops the timer, drives the switch OFF and stores the two
    voltages; it moves to INIT exactly when the battery is below VCHARGE and
    the panel at D_MAX is not below the battery, and stays in DONE
    otherwise.  The duty cycle is not touched. *)
Theorem done_pass_resumes_exactly (s : state) (r : readings) :
  cur_state s = DONE ->
  exists s',
    loop s r = Some s' /\
    timer_on s' = false /\ SW1_PWM s' = false /\
    v_battery s' = VBAT_MEAS r /\ v_solar s' = VSOL_MEAS r /\
    duty_cycle s' = duty_cycle s /\
    ((VBAT_MEAS r < VCHARGE)%Q ->
     (VBAT_MEAS r <= VSOL_MEAS r * inject_Z D_MAX / (100 # 1))%Q ->
       cur_state s' = INIT) /\
    ((VCHARGE <= VBAT_MEAS r)%Q \/
     (VSOL_MEAS r * inject_Z D_MAX / (100 # 1) < VBAT_MEAS r)%Q ->
       cur_state s' = DONE).
Proof.
  intro C. exists (loop_DONE s r). split; [unfold loop; now rewrite C|].
  destruct (loop_DONE_result s r) as (R1 & R2 & R3 & R4 & R5 & R6 & R7 & R8).
  repeat apply conj; try assumption.
  intros [H|H]; [now apply R7|].
  destruct (R8 H) as [K|K]; congruence.
Qed.

(** X4 from the DONE state reached in C8's witness, with the panel back at
    18 V. *)
Lemma done_pass_resumes_exactly_witness :
  cur_state (after (trace_tenth_entry ++ [Loop (volts (12 # 1) (10 # 1))]))
  = DONE /\
  exists s',
    loop (after (trace_tenth_entry ++ [Loop (volts (12 # 1) (10 # 1))]))
         (volts (12 # 1) (18 # 1)) = Some s' /\
    timer_on s' = false /\ SW1_PWM s' = false /\ cur_state s' = INIT.
Proof.
  assert (C : cur_state (after (trace_tenth_entry
                                ++ [Loop (volts (12 # 1) (10 # 1))])) = DONE)
    by (vm_compute; reflexivity).
  split; [exact C|].
  destruct (done_pass_resumes_exactly _ (volts (12 # 1) (18 # 1)) C)
    as (s' & L & T & S & _ & _ & _ & I & _).
  exists s'. repeat apply conj; try assumption.
  apply I; vm_compute; [reflexivity | discriminate].
Defined.

(** X5. An INIT pass whose seed is defined clears the counters, the
    integrals, the powers and the entry flag, sets duty_inc, stores the three
    readings and the clock, and always ends in INTEGRATE with the timer on:
    the DONE that check_battery sets for a charged battery is overwritten. *)
Theorem init_pass_always_starts_charging
    (s : state) (r : readings) (d : Z) :
  cur_state s = INIT ->
  init_duty (VBAT_MEAS r) (VSOL_MEAS r) = Some d ->
  exists s',
    loop s r = Some s' /\
    cur_state s' = INTEGRATE /\ timer_on s' = true /\ duty_cycle s' = d /\
    pwm_count s' = 0 /\ num_integrals s' = 0 /\ integral s' = 0 /\
    integral_avg s' = 0 /\ new_integral s' = false /\ duty_inc s' = true /\
    p_cur s' = 0%Q /\ p_prev s' = 0%Q /\
    v_battery s' = VBAT_MEAS r /\ v_solar s' = VSOL_MEAS r /\
    vl_prev s' = VL_MEAS r /\ t_cur s' = micros r /\ t_prev s' = micros r.
Proof.
  intros C D.
  assert (E : exists s', loop_INIT s r = Some s').
  { unfold loop_INIT. fields.
    match goal with
    | |- context [check_battery ?v ?x] =>
        pose proof (check_battery_fields v x) as F; cbv zeta in F; fields;
        destruct F as (F1 & _)
    end.
    rewrite F1, D. eexists. reflexivity. }
  destruct E as (s' & L). exists s'.
  pose proof (loop_INIT_result _ _ _ L)
    as (R1 & R2 & R3 & R4 & R5 & R6 & R7 & R8 & R9 & R10 & R11 & R12 & R13
        & R14 & R15 & _ & _ & R18).
  split; [unfold loop; now rewrite C|].
  repeat apply conj; try assumption. congruence.
Qed.

(** X5 at power-up with a charged battery (15 V) and the panel at 18 V. *)
Lemma init_pass_always_starts_charging_witness :
  cur_state setup = INIT /\
  init_duty (VBAT_MEAS (volts (15 # 1) (18 # 1)))
            (VSOL_MEAS (volts (15 # 1) (18 # 1))) = Some 83 /\
  (VCHARGE <= VBAT_MEAS (volts (15 # 1) (18 # 1)))%Q /\
  exists s',
    loop setup (volts (15 # 1) (18 # 1)) = Some s' /\
    cur_state s' = INTEGRATE /\ timer_on s' = true /\ duty_cycle s' = 83.
Proof.
  assert (C : cur_state setup = INIT) by reflexivity.
  assert (D : init_duty (VBAT_MEAS (volts (15 # 1) (18 # 1)))
                        (VSOL_MEAS (volts (15 # 1) (18 # 1))) = Some 83)
    by (vm_compute; reflexivity).
  split; [exact C|]. split; [exact D|].
  split; [vm_compute; discriminate|].
  destruct (init_pass_always_starts_charging setup _ 83 C D)
    as (s' & L & H1 & H2 & H3 & _).
  exists s'. repeat apply conj; assumption.
Defined.

(** X6. An MPPT pass ends in DONE with the timer stopped exactly when the
    battery reading has reached VCHARGE, or the panel at D_MAX is below the
    battery, or the decision block runs and its second battery reading has
    reached VCHARGE; otherwise it stays in MPPT with the timer running. *)
Theorem mppt_pass_stops_exactly (s : state) (r : readings) :
  cur_state s = MPPT ->
  timer_on s = true ->
  exists s',
    loop s r = Some s' /\
    ((VCHARGE <= VBAT_MEAS r)%Q \/
     (VSOL_MEAS r * inject_Z D_MAX / (100 # 1) < VBAT_MEAS r)%Q \/
     (num_integrals (mppt_fold (mppt_check s r)) = NUM_INT /\
      (VCHARGE <= VBAT_MEAS_2 r)%Q) ->
       cur_state s' = DONE /\ timer_on s' = false) /\
    ((VBAT_MEAS r < VCHARGE)%Q ->
     (VBAT_MEAS r <= VSOL_MEAS r * inject_Z D_MAX / (100 # 1))%Q ->
     num_integrals (mppt_fold (mppt_check s r)) <> NUM_INT \/
     (VBAT_MEAS_2 r < VCHARGE)%Q ->
       cur_state s' = MPPT /\ timer_on s' = true).
Proof.
  intros C T. exists (loop_MPPT s r).
  split; [unfold loop; now rewrite C|].
  pose proof (mppt_fold_fields (mppt_check s r)) as F. cbv zeta in F.
  destruct F as (_ & _ & F3 & F4 & _).
  pose proof (mppt_decide_state (mppt_fold (mppt_check s r)) r) as S.
  cbv zeta in S. destruct S as (S1 & S2 & _).
  destruct (mppt_check_state s r) as (K1 & K2).
  unfold loop_MPPT. split.
  - intros [H|[H|(N & H)]].
    + apply mppt_decide_done; rewrite ?F3, ?F4; apply K1; auto.
    + apply mppt_decide_done; rewrite ?F3, ?F4; apply K1; auto.
    + now apply S1.
  - intros B L H. destruct (S2 H) as (E1 & E2). destruct (K2 B L) as (E3 & E4).
    split; congruence.
Qed.

(** X6 at the tenth MPPT entry after power-up: the checks at the top pass,
    the decision block runs and its battery reading of 15 V stops the
    charger. *)
Lemma mppt_pass_stops_exactly_witness :
  cur_state (after trace_tenth_entry) = MPPT /\
  timer_on (after trace_tenth_entry) = true /\
  exists s',
    loop (after trace_tenth_entry)
         (mkReadings (12 # 1) (18 # 1) 0%Q 10000 (15 # 1)) = Some s' /\
    cur_state s' = DONE /\ timer_on s' = false.
Proof.
  assert (C : cur_state (after trace_tenth_entry) = MPPT)
    by (vm_compute; reflexivity).
  assert (T : timer_on (after trace_tenth_entry) = true)
    by (vm_compute; reflexivity).
  split; [exact C|]. split; [exact T|].
  destruct (mppt_pass_stops_exactly _
              (mkReadings (12 # 1) (18 # 1) 0%Q 10000 (15 # 1)) C T)
    as (s' & L & D & _).
  exists s'. split; [exact L|]. apply D. right. right.
  split; vm_compute; [reflexivity | discriminate].
Defined.

(** X7. A charger stopped by the checks at the top of an MPPT pass stays
    stopped while the readings stay the same: the handler is inert, and the
    DONE pass that follows reads the same voltages and remains in DONE with
    the timer off and the switch OFF. *)
Theorem stopped_charger_stays_stopped (s : state) (r : readings) :
  cur_state s = MPPT ->
  (VCHARGE <= VBAT_MEAS r)%Q \/
  (VSOL_MEAS r * inject_Z D_MAX / (100 # 1) < VBAT_MEAS r)%Q ->
  exists s1 s2,
    loop s r = Some s1 /\ cur_state s1 = DONE /\ pwm_handler s1 = s1 /\
    loop s1 r = Some s2 /\ cur_state s2 = DONE /\
    timer_on s2 = false /\ SW1_PWM s2 = false.
Proof.
  intros C H. exists (loop_MPPT s r), (loop_DONE (loop_MPPT s r) r).
  destruct (mppt_check_done s r H) as (K1 & K2).
  pose proof (mppt_fold_fields (mppt_check s r)) as F. cbv zeta in F.
  destruct F as (_ & _ & F3 & F4 & _).
  destruct (mppt_decide_done (mppt_fold (mppt_check s r)) r) as (D1 & D2);
    [congruence | congruence |].
  fold (loop_MPPT s r) in D1, D2.
  destruct (loop_DONE_result (loop_MPPT s r) r)
    as (R1 & R2 & _ & _ & _ & _ & R7 & R8).
  repeat apply conj; try assumption.
  - unfold loop. now rewrite C.
  - unfold pwm_handler. now rewrite D2.
  - unfold loop. now rewrite D1.
  - destruct H as [H|H]; [now apply R7|].
    destruct (R8 H) as [K|K]; congruence.
Qed.

(** X7 at the tenth MPPT entry after power-up, with the panel down to
    10 V. *)
Lemma stopped_charger_stays_stopped_witness :
  cur_state (after trace_tenth_entry) = MPPT /\
  ((VCHARGE <= VBAT_MEAS (volts (12 # 1) (10 # 1)))%Q \/
   (VSOL_MEAS (volts (12 # 1) (10 # 1)) * inject_Z D_MAX / (100 # 1)
    < VBAT_MEAS (volts (12 # 1) (10 # 1)))%Q) /\
  exists s1 s2,
    loop (after trace_tenth_entry) (volts (12 # 1) (10 # 1)) = Some s1 /\
    loop s1 (volts (12 # 1) (10 # 1)) = Some s2 /\
    cur_state s2 = DONE /\ timer_on s2 = false /\ SW1_PWM s2 = false.
Proof.
  assert (C : cur_state (after trace_tenth_entry) = MPPT)
    by (vm_compute; reflexivity).
  assert (L : (VCHARGE <= VBAT_MEAS (volts (12 # 1) (10 # 1)))%Q \/
              (VSOL_MEAS (volts (12 # 1) (10 # 1)) * inject_Z D_MAX / (100 # 1)
               < VBAT_MEAS (volts (12 # 1) (10 # 1)))%Q)
    by (right; vm_compute; reflexivity).
  split; [exact C|]. split; [exact L|].
  destruct (stopped_charger_stays_stopped _ _ C L)
    as (s1 & s2 & H1 & _ & _ & H2 & H3 & H4 & H5).
  exists s1, s2. repeat apply conj; assumption.
Defined.

(** *** The PWM counter *)

Lemma pwm_handler_tick (s : state) :
  timer_on s = true ->
  0 <= pwm_count s < 99 ->
  pwm_count (pwm_handler s) = pwm_count s + 1 /\
  cur_state (pwm_handler s) =
    (if pwm_count s + 1 <=? duty_cycle s then INTEGRATE else MPPT).
Proof.
  intros T P. unfold pwm_handler. rewrite T. fields.
  rewrite uchar_small by lia.
  destruct (pwm_count s + 1 <=? duty_cycle s) eqn:E; fields; [auto|].
  apply Z.leb_gt in E.
  replace (duty_cycle s <? pwm_count s + 1) with true
    by (symmetry; apply Z.ltb_lt; lia).
  replace (pwm_count s + 1 <? 100) with true
    by (symmetry; apply Z.ltb_lt; lia).
  cbn [andb]. fields. auto.
Qed.

Lemma pwm_handler_wrap (s : state) :
  timer_on s = true ->
  pwm_count s = 99 ->
  duty_cycle s < 100 ->
  pwm_count (pwm_handler s) = 0 /\
  cur_state (pwm_handler s) = cur_state s.
Proof.
  intros T P D. unfold pwm_handler. rewrite T. fields. rewrite P.
  change (uchar (99 + 1)) with 100.
  replace (100 <=? duty_cycle s) with false
    by (symmetry; apply Z.leb_gt; lia).
  cbn [Z.ltb Z.compare Pos.compare Pos.compare_cont andb].
  rewrite andb_false_r. cbn [Z.leb Z.compare Pos.compare Pos.compare_cont].
  fields. auto.
Qed.

Lemma ticks_succ (n : nat) (s : state) :
  ticks (S n) s = pwm_handler (ticks n s).
Proof. reflexivity. Qed.

Lemma ticks_frame (n : nat) (s : state) :
  duty_cycle (ticks n s) = duty_cycle s /\
  timer_on (ticks n s) = timer_on s.
Proof.
  induction n as [|n IH]; [auto|]. rewrite ticks_succ.
  pose proof (pwm_handler_frame (ticks n s)) as F. cbv zeta in F.
  destruct F as (F1 & F2 & _). destruct IH. split; congruence.
Qed.

(** X8. With the timer on, the counter at 0 and a duty cycle d below 99, and
    no pass of loop() in between, the k-th interrupt (k from 1 to 99) leaves
    pwm_count at k and sets INTEGRATE when k <= d and MPPT when k > d; the
    100th interrupt puts pwm_count back to 0 and leaves the state in MPPT.
    A PWM period is 100 interrupts, d of them in INTEGRATE. *)
Theorem pwm_period_is_100_ticks (s : state) :
  timer_on s = true ->
  pwm_count s = 0 ->
  0 <= duty_cycle s < 99 ->
  (forall k : nat, (1 <= k <= 99)%nat ->
     pwm_count (ticks k s) = Z.of_nat k /\
     cur_state (ticks k s) =
       (if Z.of_nat k <=? duty_cycle s then INTEGRATE else MPPT)) /\
  pwm_count (ticks 100 s) = 0 /\
  cur_state (ticks 100 s) = MPPT /\
  duty_cycle (ticks 100 s) = duty_cycle s /\
  timer_on (ticks 100 s) = true.
Proof.
  intros T P D.
  assert (A : forall k : nat, (k <= 99)%nat ->
            pwm_count (ticks k s) = Z.of_nat k /\
            ((1 <= k)%nat ->
             cur_state (ticks k s) =
               (if Z.of_nat k <=? duty_cycle s then INTEGRATE else MPPT))).
  { induction k as [|k IH]; intro K.
    - split; [exact P | lia].
    - destruct IH as (IH & _); [lia|].
      destruct (ticks_frame k s) as (F1 & F2).
      rewrite ticks_succ.
      destruct (pwm_handler_tick (ticks k s)) as (H1 & H2);
        [congruence | lia |].
      rewrite H1, H2, IH, F1, Nat2Z.inj_succ. unfold Z.succ. auto. }
  split.
  { intros k K. destruct (A k) as (A1 & A2); [lia|].
    split; [exact A1 | apply A2; lia]. }
  destruct (A 99%nat) as (A1 & A2); [lia|].
  destruct (ticks_frame 99 s) as (F1 & F2).
  rewrite (ticks_succ 99 s).
  pose proof (pwm_handler_frame (ticks 99 s)) as G. cbv zeta in G.
  destruct G as (G1 & G2 & _).
  destruct (pwm_handler_wrap (ticks 99 s)) as (W1 & W2);
    [congruence | exact A1 | lia |].
  rewrite W1, W2, G1, G2, F1, F2, A2 by lia.
  replace (Z.of_nat 99 <=? duty_cycle s) with false
    by (symmetry; apply Z.leb_gt; lia).
  auto.
Qed.

(** X8 right after a power-up at 12 V / 18 V (duty cycle 66). *)
Lemma pwm_period_is_100_ticks_witness :
  timer_on (after trace_12_18) = true /\
  pwm_count (after trace_12_18) = 0 /\
  0 <= duty_cycle (after trace_12_18) < 99 /\
  cur_state (ticks 66 (after trace_12_18)) = INTEGRATE /\
  cur_state (ticks 67 (after trace_12_18)) = MPPT /\
  pwm_count (ticks 100 (after trace_12_18)) = 0.
Proof.
  assert (T : timer_on (after trace_12_18) = true) by (vm_compute; reflexivity).
  assert (P : pwm_count (after trace_12_18) = 0) by (vm_compute; reflexivity).
  assert (D : 0 <= duty_cycle (after trace_12_18) < 99)
    by (vm_compute; split; [discriminate | reflexivity]).
  destruct (pwm_period_is_100_ticks _ T P D) as (K & W & _).
  split; [exact T|]. split; [exact P|]. split; [exact D|].
  split; [|split; [|exact W]].
  - destruct (K 66%nat) as (_ & C); [lia|]. exact C.
  - destruct (K 67%nat) as (_ & C); [lia|]. exact C.
Defined.

(** X9. Once the duty cycle is 99 or more with the state in INTEGRATE and
    the timer on, no sequence of interrupts and passes of loop() ever leaves
    INTEGRATE: the handler never sets MPPT, so the duty cycle is never
    adjusted and the battery voltage is never read again. *)
Theorem high_duty_never_leaves_integrate
    (es : list event) (s s' : state) :
  99 <= duty_cycle s ->
  cur_state s = INTEGRATE ->
  timer_on s = true ->
  run s es = Some s' ->
  cur_state s' = INTEGRATE /\ timer_on s' = true /\
  duty_cycle s' = duty_cycle s /\ v_battery s' = v_battery s.
Proof.
  revert s. induction es as [|e es IH]; intros s D C T R; simpl in R.
  - inversion R; subst. auto.
  - destruct (step s e) as [s1|] eqn:E; [|discriminate].
    assert (K : cur_state s1 = INTEGRATE /\ timer_on s1 = true /\
                duty_cycle s1 = duty_cycle s /\ v_battery s1 = v_battery s).
    { destruct e as [r|]; simpl in E.
      - unfold loop in E. rewrite C in E.
        apply loop_INTEGRATE_result in E.
        destruct E as (E1 & E2 & E3 & _ & _ & _ & E7 & _).
        repeat apply conj; congruence.
      - inversion E; subst; clear E. unfold pwm_handler. rewrite T. fields.
        pose proof (uchar_range (pwm_count s + 1)) as U.
        destruct (uchar (pwm_count s + 1) <=? duty_cycle s) eqn:L; fields;
          [auto|].
        apply Z.leb_gt in L.
        replace (uchar (pwm_count s + 1) <? 100) with false
          by (symmetry; apply Z.ltb_ge; lia).
        rewrite andb_false_r.
        destruct (100 <=? uchar (pwm_count s + 1)); fields; auto. }
    destruct K as (K1 & K2 & K3 & K4).
    destruct (IH s1) as (H1 & H2 & H3 & H4); try assumption; [lia|].
    repeat apply conj; congruence.
Qed.

(** X9 after the power-up at 12 V / 12 V of C1 (duty cycle 100): 250
    interrupts and an INTEGRATE pass later the charger is still in
    INTEGRATE. *)
Lemma high_duty_never_leaves_integrate_witness :
  99 <= duty_cycle (after trace_equal_volts) /\
  cur_state (after trace_equal_volts) = INTEGRATE /\
  timer_on (after trace_equal_volts) = true /\
  run (after trace_equal_volts)
      (repeat Tick 250 ++ [Loop (charging (2 # 1) 1000)])
  = Some (after (trace_equal_volts ++ repeat Tick 250
                 ++ [Loop (charging (2 # 1) 1000)])) /\
  cur_state (after (trace_equal_volts ++ repeat Tick 250
                    ++ [Loop (charging (2 # 1) 1000)])) = INTEGRATE.
Proof.
  assert (D : 99 <= duty_cycle (after trace_equal_volts))
    by (vm_compute; discriminate).
  assert (C : cur_state (after trace_equal_volts) = INTEGRATE)
    by (vm_compute; reflexivity).
  assert (T : timer_on (after trace_equal_volts) = true)
    by (vm_compute; reflexivity).
  assert (R : run (after trace_equal_volts)
                  (repeat Tick 250 ++ [Loop (charging (2 # 1) 1000)])
              = Some (after (trace_equal_volts ++ repeat Tick 250
                             ++ [Loop (charging (2 # 1) 1000)])))
    by (vm_compute; reflexivity).
  split; [exact D|]. split; [exact C|]. split; [exact T|]. split; [exact R|].
  exact (proj1 (high_duty_never_leaves_integrate _ _ _ D C T R)).
Defined.

(** *** The duty cycle *)


(** X10. A step other than an INIT pass that starts with the duty cycle in
    [D_MIN, D_MAX] ends with it in [D_MIN, D_MAX] and moves it by at most
    one. *)
Theorem duty_cycle_moves_by_at_most_one (s s' : state) (e : event) :
  cur_state s <> INIT ->
  D_MIN <= duty_cycle s <= D_MAX ->
  step s e = Some s' ->
  D_MIN <= duty_cycle s' <= D_MAX /\
  Z.abs (duty_cycle s' - duty_cycle s) <= 1.
Proof.
  intros NI B H.
  split; [exact (duty_cycle_bounds_step s s' e NI B H)|].
  destruct e as [r|]; simpl in H.
  - unfold loop in H. destruct (cur_state s) eqn:C; [congruence| | |].
    + apply loop_INTEGRATE_result in H.
      destruct H as (_ & _ & H & _). rewrite H. lia.
    + inversion H; subst; clear H. unfold loop_MPPT.
      pose proof (mppt_check_fields s r) as A.
      pose proof (mppt_fold_fields (mppt_check s r)) as F.
      cbv zeta in A, F.
      destruct A as (_ & _ & A3 & _). destruct F as (F1 & _).
      set (m := mppt_fold (mppt_check s r)) in *.
      assert (Bm : D_MIN <= duty_cycle m <= D_MAX) by (rewrite F1, A3; exact B).
      rewrite <- A3, <- F1.
      destruct (Z.eq_dec (num_integrals m) NUM_INT) as [N|N].
      * pose proof (mppt_decide_spec m r N Bm) as P.
        unfold perturb_and_observe in P.
        destruct P as (_ & P2 & P3 & P4 & _).
        set (pc := (VBAT_MEAS_2 r * inject_Z (integral_avg m))%Q) in *.
        destruct (Q_dec (p_prev m) pc) as [[L|G]|E].
        -- destruct (P2 L) as (K & _). rewrite K.
           unfold D_MIN, D_MAX in *. destruct (duty_inc m); lia.
        -- destruct (P3 G) as (K & _). rewrite K.
           unfold D_MIN, D_MAX in *. destruct (duty_inc m); lia.
        -- destruct P4 as (K & _); [symmetry; exact E|]. rewrite K. lia.
      * unfold mppt_decide. apply Z.eqb_neq in N. rewrite N. lia.
    + inversion H; subst; clear H. unfold loop_DONE. fields.
      match goal with
      | |- context [check_battery ?v ?x] =>
          pose proof (check_battery_fields v x) as F; cbv zeta in F; fields;
          destruct F as (_ & F2 & _)
      end.
      destruct (_ && _); fields; rewrite F2; lia.
  - inversion H; subst; clear H.
    pose proof (pwm_handler_frame s) as F. cbv zeta in F.
    destruct F as (F1 & _). rewrite F1. lia.
Qed.

(** X10 at the tenth MPPT entry after power-up: the pass moves the duty cycle
    from 66 to 67. *)
Lemma duty_cycle_moves_by_at_most_one_witness :
  cur_state (after trace_tenth_entry) <> INIT /\
  D_MIN <= duty_cycle (after trace_tenth_entry) <= D_MAX /\
  step (after trace_tenth_entry) (Loop (charging 0%Q 10000))
  = Some (after (trace_tenth_entry ++ [Loop (charging 0%Q 10000)])) /\
  D_MIN <= duty_cycle (after (trace_tenth_entry
                              ++ [Loop (charging 0%Q 10000)])) <= D_MAX.
Proof.
  assert (NI : cur_state (after trace_tenth_entry) <> INIT)
    by (vm_compute; discriminate).
  assert (B : D_MIN <= duty_cycle (after trace_tenth_entry) <= D_MAX)
    by (vm_compute; split; discriminate).
  assert (H : step (after trace_tenth_entry) (Loop (charging 0%Q 10000))
              = Some (after (trace_tenth_entry
                             ++ [Loop (charging 0%Q 10000)])))
    by (vm_compute; reflexivity).
  split; [exact NI|]. split; [exact B|]. split; [exact H|].
  exact (proj1 (duty_cycle_moves_by_at_most_one _ _ _ NI B H)).
Defined.







(** *** The integrals *)

(** X13. When the sum fits a long, the fold on entry to MPPT puts
    integral_avg between its old value and the integral just completed, and
    at least halves (rounding up) its distance to that integral: the average
    is an exponential one, weighting the newest integral by one half. *)
Theorem fold_moves_average_halfway (s : state) :
  new_integral s = true ->
  LONG_MIN <= integral_avg s + integral s <= LONG_MAX ->
  Z.min (integral_avg s) (integral s) <= integral_avg (mppt_fold s)
    <= Z.max (integral_avg s) (integral s) /\
  Z.abs (integral_avg (mppt_fold s) - integral s)
    <= (Z.abs (integral_avg s - integral s) + 1) / 2.
Proof.
  intros E R. destruct (mppt_fold_entry s E) as (_ & F & _).
  rewrite F, long_small, Z.shiftr_div_pow2 by lia. change (2 ^ 1) with 2.
  pose proof (Z_div_mod_eq_full (integral_avg s + integral s) 2).
  pose proof (Z.mod_pos_bound (integral_avg s + integral s) 2 ltac:(lia)).
  pose proof (Z_div_mod_eq_full (Z.abs (integral_avg s - integral s) + 1) 2).
  pose proof (Z.mod_pos_bound (Z.abs (integral_avg s - integral s) + 1) 2
                ltac:(lia)).
  split; lia.
Qed.

(** X13 at the tenth MPPT entry after power-up: 1994 and 2000 fold into
    1997. *)
Lemma fold_moves_average_halfway_witness :
  new_integral (after trace_tenth_entry) = true /\
  LONG_MIN <= integral_avg (after trace_tenth_entry)
              + integral (after trace_tenth_entry) <= LONG_MAX /\
  1994 <= integral_avg (mppt_fold (after trace_tenth_entry)) <= 2000.
Proof.
  assert (E : new_integral (after trace_tenth_entry) = true)
    by (vm_compute; reflexivity).
  assert (R : LONG_MIN <= integral_avg (after trace_tenth_entry)
                          + integral (after trace_tenth_entry) <= LONG_MAX)
    by (vm_compute; split; discriminate).
  split; [exact E|]. split; [exact R|].
  exact (proj1 (fold_moves_average_halfway _ E R)).
Defined.






(** *** The ranges of the variables *)

(** X16. Between two steps num_integrals is below NUM_INT, so the decision
    block runs on every tenth entry fold and the count never wraps; the two
    long accumulators hold values of their type and the two unsigned char
    variables stay below 256. *)
Theorem variables_stay_in_range (s : state) :
  reachable s ->
  0 <= num_integrals s < NUM_INT /\
  LONG_MIN <= integral s <= LONG_MAX /\
  LONG_MIN <= integral_avg s <= LONG_MAX /\
  0 <= duty_cycle s < 256 /\
  0 <= pwm_count s < 256.
Proof.
  intro R.
  destruct (machine_inv_reachable s R) as (_ & _ & _ & I4 & I5 & I6 & I7 & I8).
  auto.
Qed.

(** X16 at the tenth MPPT entry after power-up, where the count is 9. *)
Lemma variables_stay_in_range_witness :
  reachable (after trace_tenth_entry) /\
  num_integrals (after trace_tenth_entry) = 9 /\
  0 <= num_integrals (after trace_tenth_entry) < NUM_INT.
Proof.
  assert (R : reachable (after trace_tenth_entry))
    by (eapply after_reachable; vm_compute; reflexivity).
  split; [exact R|]. split; [vm_compute; reflexivity|].
  exact (proj1 (variables_stay_in_range _ R)).
Defined.

(** *** The macros *)

Lemma VBAT_of_code_scale (c : Z) :
  (VBAT_of_code c == (264 # 100) * inject_Z c)%Q.
Proof.
  unfold VBAT_of_code, ADC_COEF. change (Z.lxor 2 (11 - 1)) with 8.
  change (inject_Z 8) with (8 # 1)%Q. field.
Qed.

(** X17. As the macros are written, one ADC code is worth 2.64 V of battery
    voltage, so check_battery finds the battery charged (state DONE, timer
    off) from code 6 on and leaves state and timer alone up to code 5. *)
Theorem battery_charged_from_code_6 (c : Z) (s : state) :
  (VBAT_of_code c == (264 # 100) * inject_Z c)%Q /\
  (6 <= c ->
     cur_state (check_battery (VBAT_of_code c) s) = DONE /\
     timer_on (check_battery (VBAT_of_code c) s) = false) /\
  (c <= 5 ->
     cur_state (check_battery (VBAT_of_code c) s) = cur_state s /\
     timer_on (check_battery (VBAT_of_code c) s) = timer_on s).
Proof.
  pose proof (VBAT_of_code_scale c) as E.
  destruct (check_battery_state (VBAT_of_code c) s) as (K1 & K2).
  split; [exact E|]. split; intro H.
  - apply K1. rewrite E. unfold VCHARGE.
    assert (I : (inject_Z 6 <= inject_Z c)%Q) by (now rewrite <- Zle_Qle).
    change (inject_Z 6) with (6 # 1)%Q in I. lra.
  - apply K2. rewrite E. unfold VCHARGE.
    assert (I : (inject_Z c <= inject_Z 5)%Q) by (now rewrite <- Zle_Qle).
    change (inject_Z 5) with (5 # 1)%Q in I. lra.
Qed.

(** X18. [BASE_PER] is a quotient of ints: for every PWM frequency from 1 to
    327 Hz (where 100*PWM_FREQ fits an int) it is 0, and setup() asks
    Timer1 for a period of 0 microseconds. *)
Theorem timer_period_is_zero (freq : Z) :
  1 <= freq <= 327 ->
  BASE_PER freq = 0 /\ (timer_period freq == 0)%Q.
Proof.
  intro H.
  assert (B : BASE_PER freq = 0) by (unfold BASE_PER; apply Z.quot_small; lia).
  split; [exact B|]. unfold timer_period. rewrite B. reflexivity.
Qed.

(** X18 at the frequency of the source. *)
Lemma timer_period_is_zero_witness :
  1 <= PWM_FREQ <= 327 /\
  BASE_PER PWM_FREQ = 0 /\ (timer_period PWM_FREQ == 0)%Q.
Proof.
  assert (H : 1 <= PWM_FREQ <= 327) by (vm_compute; split; discriminate).
  split; [exact H|]. exact (timer_period_is_zero PWM_FREQ H).
Defined.
